(** * oai-proxy-mod: key pool, request queue and proxy pipeline

    A shallow embedding of the credential pool ([prioritizeKeys], the OpenAI
    and AWS Bedrock key providers, the generic lockout period), the request
    queue ([enqueue], [dequeue], [processQueue], the wait-time estimator),
    the reversible request manager ([ProxyReqManager]), the outbound payload
    preprocessor and the upstream error classifier, followed by the
    properties established about them.

    Conventions.  Timestamps and durations are millisecond integers ([Z]).
    [Date.now()] is a parameter [now] of every operation that reads the clock:
    one synchronous call reads a single instant.  JavaScript arrays are lists;
    objects that are shared between an array and a caller are addressed by
    their index in the array that owns them. *)

From Stdlib Require Import ZArith QArith Lia Lqa Bool Ascii String List Sorted Permutation.
From stdpp Require Import base decidable option list strings gmap.

Local Open Scope string_scope.
Local Open Scope list_scope.
Local Open Scope Z_scope.

(** ** JavaScript helpers *)

Module JS.

(** [String.prototype.includes]: [sub] occurs somewhere in [s]. *)
Fixpoint includes (s sub : string) : bool :=
  if String.prefix sub s then true
  else match s with
       | EmptyString => false
       | String _ s' => includes s' sub
       end.

(** [Array.prototype.some]. *)
Definition some {A} (p : A -> bool) (l : list A) : bool := existsb p l.

(** ASCII lower-casing, as [String.prototype.toLowerCase] acts on header
    names (an HTTP field name is an ASCII token). *)
Definition lower_ascii (c : ascii) : ascii :=
  let n := nat_of_ascii c in
  if (andb (Nat.leb 65 n) (Nat.leb n 90)) then ascii_of_nat (n + 32) else c.

Fixpoint toLowerCase (s : string) : string :=
  match s with
  | EmptyString => EmptyString
  | String c s' => String (lower_ascii c) (toLowerCase s')
  end.

(** [Array.prototype.sort(cmp)] is a stable sort: an element [x] is placed
    before [y] when [cmp x y < 0], after it when [cmp x y > 0], and elements
    that compare equal keep their relative order.  For a consistent
    comparator every stable sort returns the same array; it is modelled by a
    stable insertion sort. *)
Fixpoint insert_sorted {A} (cmp : A -> A -> Z) (x : A) (l : list A) : list A :=
  match l with
  | [] => [x]
  | y :: l' => if cmp x y <=? 0 then x :: y :: l'
               else y :: insert_sorted cmp x l'
  end.

Definition sort {A} (cmp : A -> A -> Z) (l : list A) : list A :=
  foldr (insert_sorted cmp) [] l.

(** [Math.min(...xs)] over a non-empty array, given as head and tail. *)
Definition min_list (x : Z) (xs : list Z) : Z := foldr Z.min x xs.

(** [arr.find(p)] together with an in-place update of the object found:
    the first element satisfying [p] is replaced by its image under [f]. *)
Fixpoint update_first {A} (p : A -> bool) (f : A -> A) (l : list A) : list A :=
  match l with
  | [] => []
  | x :: l' => if p x then f x :: l' else x :: update_first p f l'
  end.

(** [Number(b)] / unary plus on a boolean. *)
Definition num_of_bool (b : bool) : Z := if b then 1 else 0.

End JS.

(** ** Model families (shared/models.ts) *)

Inductive ModelFamily : Set :=
| turbo | gpt4 | gpt4_32k | gpt4_turbo | gpt4o | o1 | o1_mini | dall_e
| claude | claude_opus
| gemini_flash | gemini_pro | gemini_ultra
| mistral_tiny | mistral_small | mistral_medium | mistral_large
| aws_claude | aws_claude_opus
| aws_mistral_tiny | aws_mistral_small | aws_mistral_medium | aws_mistral_large
| gcp_claude | gcp_claude_opus
| azure_turbo | azure_gpt4 | azure_gpt4_32k | azure_gpt4_turbo | azure_gpt4o
| azure_dall_e | azure_o1 | azure_o1_mini.

#[global] Instance ModelFamily_eq_dec : EqDecision ModelFamily.
Proof. solve_decision. Defined.

Definition MODEL_FAMILIES : list ModelFamily :=
  [ turbo; gpt4; gpt4_32k; gpt4_turbo; gpt4o; o1; o1_mini; dall_e;
    claude; claude_opus;
    gemini_flash; gemini_pro; gemini_ultra;
    mistral_tiny; mistral_small; mistral_medium; mistral_large;
    aws_claude; aws_claude_opus;
    aws_mistral_tiny; aws_mistral_small; aws_mistral_medium; aws_mistral_large;
    gcp_claude; gcp_claude_opus;
    azure_turbo; azure_gpt4; azure_gpt4_32k; azure_gpt4_turbo; azure_gpt4o;
    azure_dall_e; azure_o1; azure_o1_mini ].

(** [families.includes(f)]. *)
Definition family_in (f : ModelFamily) (fs : list ModelFamily) : bool :=
  bool_decide (f ∈ fs).

(** ** Credentials (shared/key-management/index.ts) *)

(** The fields of the [Key] interface that the pool operations read or
    write.  The secret itself and the usage counters take no part in
    selection. *)
Record Key : Set := mkKey {
  hash : string;
  modelFamilies : list ModelFamily;
  isDisabled : bool;
  isRevoked : bool;
  lastUsed : Z;
  lastChecked : Z;
  rateLimitedAt : Z;
  rateLimitedUntil : Z
}.

Definition set_lastUsed (t : Z) (k : Key) : Key :=
  mkKey (hash k) (modelFamilies k) (isDisabled k) (isRevoked k)
        t (lastChecked k) (rateLimitedAt k) (rateLimitedUntil k).

Definition set_rateLimit (at_ until : Z) (k : Key) : Key :=
  mkKey (hash k) (modelFamilies k) (isDisabled k) (isRevoked k)
        (lastUsed k) (lastChecked k) at_ until.

(** Provider key types extend [Key]; [KeyLike] is the [T extends Key]
    bound of the generic pool functions. *)
Class KeyLike (T : Type) := {
  key_of : T -> Key;
  with_key : Key -> T -> T
}.

#[global] Instance Key_KeyLike : KeyLike Key :=
  {| key_of := fun k => k; with_key := fun k _ => k |}.

(** [key.lastUsed = Date.now()]. *)
Definition touch {T} `{KeyLike T} (now : Z) (k : T) : T :=
  with_key (set_lastUsed now (key_of k)) k.

(** A key together with the index of the pool slot that holds it: the
    handle through which [filter] and [sort] results alias pool objects. *)
#[global] Instance indexed_KeyLike {T} `{KeyLike T} : KeyLike (nat * T) :=
  {| key_of := fun p => key_of (snd p);
     with_key := fun k p => (fst p, with_key k (snd p)) |}.

(** ** Key prioritizer (shared/key-management/prioritize-keys.ts) *)

Section Prioritize.
Context {T : Type} `{KeyLike T}.

(** The comparator handed to [keys.sort]. *)
Definition compareKeys (now : Z) (customComparator : option (T -> T -> Z))
    (a b : T) : Z :=
  let aRateLimited := now <? rateLimitedUntil (key_of a) in
  let bRateLimited := now <? rateLimitedUntil (key_of b) in
  if aRateLimited && negb bRateLimited then 1
  else if negb aRateLimited && bRateLimited then -1
  else if aRateLimited && bRateLimited then
    rateLimitedUntil (key_of a) - rateLimitedUntil (key_of b)
  else
    match customComparator with
    | Some cmp =>
        let result := cmp a b in
        if negb (result =? 0) then result
        else lastUsed (key_of a) - lastUsed (key_of b)
    | None => lastUsed (key_of a) - lastUsed (key_of b)
    end.

Definition prioritizeKeys (now : Z) (keys : list T)
    (customComparator : option (T -> T -> Z)) : list T :=
  JS.sort (compareKeys now customComparator) keys.

End Prioritize.

(** ** Generic lockout period (shared/key-management/index.ts) *)

Section GenericLockout.
Context {T : Type} `{KeyLike T}.

Definition createGenericGetLockoutPeriod (getKeys : list T)
    (now : Z) (family : option ModelFamily) : Z :=
  let keys := getKeys in
  let activeKeys :=
    List.filter (fun k =>
      negb (isDisabled (key_of k)) &&
      match family with
      | None => true
      | Some f => family_in f (modelFamilies (key_of k))
      end) keys in
  match activeKeys with
  | [] => 0
  | k0 :: rest =>
      let rateLimitedKeys :=
        List.filter (fun k => now <? rateLimitedUntil (key_of k)) activeKeys in
      let anyNotRateLimited :=
        (length rateLimitedKeys <? length activeKeys)%nat in
      if anyNotRateLimited then 0
      else JS.min_list (rateLimitedUntil (key_of k0) - now)
             (map (fun k => rateLimitedUntil (key_of k) - now) rest)
  end.

End GenericLockout.

(** ** Partial updates (shared/key-management/index.ts) *)

(** A [Partial<Key>]: the properties an update object can carry for the
    fields modelled here; [None] for a property the object does not have.
    The [hash] is never updated by the callers in this repository. *)
Record KeyUpdate : Set := mkKeyUpdate {
  new_modelFamilies : option (list ModelFamily);
  new_isDisabled : option bool;
  new_isRevoked : option bool;
  new_lastUsed : option Z;
  new_lastChecked : option Z;
  new_rateLimitedAt : option Z;
  new_rateLimitedUntil : option Z
}.

(** The update object with no property. *)
Definition no_update : KeyUpdate :=
  mkKeyUpdate None None None None None None None.

(** [Object.assign(key, update)]. *)
Definition assign (update : KeyUpdate) (k : Key) : Key :=
  mkKey (hash k)
        (default (modelFamilies k) (new_modelFamilies update))
        (default (isDisabled k) (new_isDisabled update))
        (default (isRevoked k) (new_isRevoked update))
        (default (lastUsed k) (new_lastUsed update))
        (default (lastChecked k) (new_lastChecked update))
        (default (rateLimitedAt k) (new_rateLimitedAt update))
        (default (rateLimitedUntil k) (new_rateLimitedUntil update)).

Definition set_lastChecked (t : Z) (k : Key) : Key :=
  mkKey (hash k) (modelFamilies k) (isDisabled k) (isRevoked k)
        (lastUsed k) t (rateLimitedAt k) (rateLimitedUntil k).

Definition set_isDisabled (b : bool) (k : Key) : Key :=
  mkKey (hash k) (modelFamilies k) b (isRevoked k)
        (lastUsed k) (lastChecked k) (rateLimitedAt k) (rateLimitedUntil k).

(** The operations that the providers built on
    [createGenericGetLockoutPeriod] share word for word (AWS Bedrock,
    Mistral AI, Azure OpenAI). *)
Section GenericProvider.
Context {T : Type} `{KeyLike T}.

(** [this.keys.find((k) => k.hash === hash)]. *)
Definition find_hash (h : string) (keys : list T) : option T :=
  List.find (fun k => bool_decide (hash (key_of k) = h)) keys.

(** [disable(key)]: nothing happens when the key is not in the pool or is
    disabled already. *)
Definition generic_disable (h : string) (keys : list T) : list T :=
  match find_hash h keys with
  | None => keys
  | Some keyFromPool =>
      if isDisabled (key_of keyFromPool) then keys
      else
        JS.update_first (fun k => bool_decide (hash (key_of k) = h))
          (fun k => with_key (set_isDisabled true (key_of k)) k) keys
  end.

(** [update(hash, update)]:
    [Object.assign(keyFromPool, { lastChecked: Date.now(), ...update })].
    The update object is given by what assigning its properties does to a
    key; [None] is the [TypeError] raised when no key has the hash. *)
Definition generic_update (now : Z) (h : string) (update : T -> T)
    (keys : list T) : option (list T) :=
  match find_hash h keys with
  | None => None
  | Some _ =>
      Some (JS.update_first (fun k => bool_decide (hash (key_of k) = h))
              (fun k => update (with_key (set_lastChecked now (key_of k)) k))
              keys)
  end.

(** [available()]. *)
Definition generic_available (keys : list T) : nat :=
  length (List.filter (fun k => negb (isDisabled (key_of k))) keys).

(** The update object [{ lastChecked: 0, isDisabled: false, isRevoked:
    false }] of [recheck()]. *)
Definition recheck_update : KeyUpdate :=
  mkKeyUpdate None (Some false) (Some false) None (Some 0) None None.

(** [recheck()]:
    [this.keys.forEach(({ hash }) => this.update(hash, {...}))].  The
    callback mutates the objects of the array, never the array, and no
    update changes a hash: the hashes visited are those of the pool as
    [recheck] finds it. *)
Definition generic_recheck (now : Z) (keys : list T) : option (list T) :=
  foldl (fun acc h =>
           acc ≫= generic_update now h
                    (fun k => with_key (assign recheck_update (key_of k)) k))
        (Some keys) (map (fun k => hash (key_of k)) keys).

(** [markRateLimited(keyHash)] with the provider's [RATE_LIMIT_LOCKOUT];
    [None] is the [TypeError] raised when no key has the hash. *)
Definition generic_markRateLimited (lockout now : Z) (keyHash : string)
    (keys : list T) : option (list T) :=
  match find_hash keyHash keys with
  | None => None
  | Some _ =>
      Some (JS.update_first (fun k => bool_decide (hash (key_of k) = keyHash))
              (fun key => with_key (set_rateLimit now (now + lockout) (key_of key))
                                   key)
              keys)
  end.

End GenericProvider.

(** ** OpenAI key provider (shared/key-management/openai/provider.ts) *)

Module OpenAI.

Record OpenAIKey : Set := mkOpenAIKey {
  base : Key;
  organizationId : option string;
  isTrial : bool;
  isOverQuota : bool;
  rateLimitRequestsReset : Z;
  rateLimitTokensReset : Z;
  modelIds : list string
}.

#[global] Instance OpenAIKey_KeyLike : KeyLike OpenAIKey :=
  {| key_of := base;
     with_key := fun b k =>
       mkOpenAIKey b (organizationId k) (isTrial k) (isOverQuota k)
                   (rateLimitRequestsReset k) (rateLimitTokensReset k)
                   (modelIds k) |}.

Definition set_rateLimitRequestsReset (r : Z) (k : OpenAIKey) : OpenAIKey :=
  mkOpenAIKey (base k) (organizationId k) (isTrial k) (isOverQuota k)
              r (rateLimitTokensReset k) (modelIds k).

Definition KEY_REUSE_DELAY : Z := 1000.

(** The provider's state is its [keys] array. *)
Abbreviation Pool := (list OpenAIKey).

Definition has_hash (h : string) (k : OpenAIKey) : bool :=
  bool_decide (hash (base k) = h).

(** [throttle(hash)]: skipped when the key is "already naturally rate
    limited"; otherwise the three rate-limit fields are overwritten. *)
Definition throttle_key (now : Z) (key : OpenAIKey) : OpenAIKey :=
  let currentRateLimit :=
    Z.max (rateLimitRequestsReset key) (rateLimitTokensReset key)
    + rateLimitedAt (base key) in
  let nextRateLimit := now + KEY_REUSE_DELAY in
  if nextRateLimit <? currentRateLimit then key
  else
    set_rateLimitRequestsReset KEY_REUSE_DELAY
      (with_key (set_rateLimit now (now + KEY_REUSE_DELAY) (base key)) key).

Definition throttle (now : Z) (h : string) (keys : Pool) : Pool :=
  JS.update_first (has_hash h) (throttle_key now) keys.

(** [markRateLimited(keyHash)]. *)
Definition markRateLimited_key (now : Z) (key : OpenAIKey) : OpenAIKey :=
  set_rateLimitRequestsReset 10000
    (with_key (set_rateLimit now (now + 10000) (base key)) key).

Definition markRateLimited (now : Z) (keyHash : string) (keys : Pool) : Pool :=
  JS.update_first (has_hash keyHash) (markRateLimited_key now) keys.

(** [updateRateLimits(keyHash, headers)].  The two reset headers are given
    as the milliseconds that [getResetDurationMillis] reads from them, [None]
    for a header that is absent. *)
Definition updateRateLimits_key (now : Z) (requestsReset tokensReset : option Z)
    (key : OpenAIKey) : OpenAIKey :=
  let key1 :=
    match requestsReset with
    | Some r => set_rateLimitRequestsReset r key
    | None => key
    end in
  let key2 :=
    match tokensReset with
    | Some t =>
        mkOpenAIKey (base key1) (organizationId key1) (isTrial key1)
          (isOverQuota key1) (rateLimitRequestsReset key1) t (modelIds key1)
    | None => key1
    end in
  match requestsReset, tokensReset with
  | None, None => key2
  | _, _ =>
      let rateLimitedUntil' :=
        rateLimitedAt (base key2)
        + Z.max (rateLimitRequestsReset key2) (rateLimitTokensReset key2) in
      if now <? rateLimitedUntil' then
        with_key (set_rateLimit (rateLimitedAt (base key2)) rateLimitedUntil'
                    (base key2)) key2
      else key2
  end.

Definition updateRateLimits (now : Z) (keyHash : string)
    (requestsReset tokensReset : option Z) (keys : Pool) : Pool :=
  JS.update_first (has_hash keyHash)
    (updateRateLimits_key now requestsReset tokensReset) keys.

(** The record the constructor creates for a configured secret. *)
Definition newKey (h : string) : OpenAIKey :=
  mkOpenAIKey (mkKey h [turbo; gpt4; gpt4_turbo; gpt4o] false false 0 0 0 0)
              None false false 0 0 [].

(** [getLockoutPeriod(family)]. *)
Definition resetTime (key : OpenAIKey) : Z :=
  Z.max (rateLimitRequestsReset key) (rateLimitTokensReset key).

Definition getLockoutPeriod (keys : Pool) (now : Z) (family : ModelFamily) : Z :=
  let activeKeys :=
    List.filter (fun key =>
      negb (isDisabled (base key)) &&
      family_in family (modelFamilies (base key))) keys in
  match activeKeys with
  | [] => 0
  | k0 :: rest =>
      let rateLimitedKeys :=
        length (List.filter (fun key =>
          now <? rateLimitedAt (base key) + Z.min 20000 (resetTime key))
          activeKeys) in
      let anyNotRateLimited := (rateLimitedKeys <? length activeKeys)%nat in
      if anyNotRateLimited then 0
      else
        JS.min_list
          (rateLimitedAt (base k0) + Z.min 20000 (resetTime k0) - now)
          (map (fun key =>
                  rateLimitedAt (base key) + Z.min 20000 (resetTime key) - now)
               rest)
  end.

Section Get.
(** The model-to-family table of shared/models.ts and the [checkKeys]
    switch of the configuration snapshot. *)
Variable getOpenAIModelFamily : string -> ModelFamily.
Variable checkKeys : bool.

(** The predicate of [this.keys.filter(...)] in [get]. *)
Definition available (model : string) (key : OpenAIKey) : bool :=
  let neededFamily := getOpenAIModelFamily model in
  let excludeTrials := bool_decide (model = "text-embedding-ada-002") in
  negb (isDisabled (base key)) &&
  family_in neededFamily (modelFamilies (base key)) &&
  (negb excludeTrials || negb (isTrial key)) &&
  (negb checkKeys || bool_decide (model ∈ modelIds key)).

(** The tiebreaker [(a, b) => +a.isTrial - +b.isTrial]. *)
Definition byTrial (a b : nat * OpenAIKey) : Z :=
  JS.num_of_bool (isTrial (snd a)) - JS.num_of_bool (isTrial (snd b)).

(** [get(requestModel)]: [None] stands for the thrown
    [PaymentRequiredError]; otherwise the shallow copy handed to the caller
    and the pool after the call. *)
Definition get (now : Z) (requestModel : string) (keys : Pool)
    : option (OpenAIKey * Pool) :=
  let model := requestModel in
  let availableKeys :=
    List.filter (fun p => available model (snd p)) (imap pair keys) in
  match prioritizeKeys now availableKeys (Some byTrial) with
  | [] => None
  | (i, selectedKey) :: _ =>
      let keys1 := alter (touch now) i keys in
      let keys2 := throttle now (hash (base selectedKey)) keys1 in
      match keys2 !! i with
      | Some copy => Some (copy, keys2)
      | None => None
      end
  end.

End Get.

(** *** Reset durations *)

(** [\d]. *)
Definition is_digit (c : ascii) : bool :=
  let n := nat_of_ascii c in Nat.leb 48 n && Nat.leb n 57.

(** [\d+] at the head of a string, read greedily: the digits and what
    follows them.  The digits are empty when the string does not start
    with one. *)
Fixpoint digits (s : string) : string * string :=
  match s with
  | String c s' =>
      if is_digit c then let '(ds, rest) := digits s' in (String c ds, rest)
      else (EmptyString, s)
  | EmptyString => (EmptyString, EmptyString)
  end.

(** [Number(ds)] for a run of digits. *)
Definition digit_value (c : ascii) : Z := Z.of_nat (nat_of_ascii c) - 48.

Definition number (ds : string) : Z :=
  fold_left (fun acc c => 10 * acc + digit_value c) (list_ascii_of_string ds) 0.

(** [Number("i.f")] for two runs of digits. *)
Definition decimal (i f : string) : Q :=
  inject_Z (number i) + inject_Z (number f) / inject_Z (10 ^ Z.of_nat (String.length f)).

(** The three optional groups of
    [/(?:(\d+)m(?!s))?(?:(\d+(?:\.\d+)?)s)?(?:(\d+)ms)?/], each tried at
    the head of what the groups before it left: the number captured and
    the rest, or [None] when the group does not match there and is
    skipped.  A greedy [\d+] never gives digits back with success: the
    character after a shorter run is a digit, where every group wants [m],
    [s] or a dot. *)
Definition minutes_group (s : string) : option (Z * string) :=
  match digits s with
  | (String _ _ as ds, String "m" rest) =>
      match rest with
      | String "s" _ => None
      | _ => Some (number ds, rest)
      end
  | _ => None
  end.

Definition seconds_group (s : string) : option (Q * string) :=
  match digits s with
  | (String _ _ as ds, String "s" rest) => Some (inject_Z (number ds), rest)
  | (String _ _ as ds, String "." after_dot) =>
      match digits after_dot with
      | (String _ _ as fs, String "s" rest) => Some (decimal ds fs, rest)
      | _ => None
      end
  | _ => None
  end.

Definition milliseconds_group (s : string) : option (Z * string) :=
  match digits s with
  | (String _ _ as ds, String "m" (String "s" rest)) => Some (number ds, rest)
  | _ => None
  end.

(** [getResetDurationMillis(resetDuration)].  The expression matches the
    empty string, so [match] succeeds at index 0 of every string; an
    unmatched group is [undefined], and [Number(undefined) || 0] is 0. *)
Definition getResetDurationMillis (resetDuration : option string) : Q :=
  match resetDuration with
  | None => 0
  | Some s =>
      let '(minutes, s1) :=
        match minutes_group s with
        | Some (m, rest) => (m, rest)
        | None => (0, s)
        end in
      let '(seconds, s2) :=
        match seconds_group s1 with
        | Some (q, rest) => (q, rest)
        | None => (0%Q, s1)
        end in
      let milliseconds :=
        match milliseconds_group s2 with
        | Some (ms, _) => ms
        | None => 0
        end in
      let minutesToMillis := inject_Z (minutes * 60 * 1000) in
      let secondsToMillis := (seconds * 1000)%Q in
      let millisecondsValue := inject_Z milliseconds in
      (minutesToMillis + secondsToMillis + millisecondsValue)%Q
  end.

End OpenAI.

(** ** AWS Bedrock key provider (shared/key-management/aws/provider.ts) *)

Module Aws.

Inductive LoggingStatus : Set := unknown | disabled | enabled.

#[global] Instance LoggingStatus_eq_dec : EqDecision LoggingStatus.
Proof. solve_decision. Defined.

Record AwsBedrockKey : Set := mkAwsBedrockKey {
  base : Key;
  awsLoggingStatus : LoggingStatus;
  modelIds : list string;
  inferenceProfileIds : list string
}.

#[global] Instance AwsBedrockKey_KeyLike : KeyLike AwsBedrockKey :=
  {| key_of := base;
     with_key := fun b k =>
       mkAwsBedrockKey b (awsLoggingStatus k) (modelIds k)
                       (inferenceProfileIds k) |}.

Definition RATE_LIMIT_LOCKOUT : Z := 5000.
Definition KEY_REUSE_DELAY : Z := 250.

Abbreviation Pool := (list AwsBedrockKey).

Definition has_hash (h : string) (k : AwsBedrockKey) : bool :=
  bool_decide (hash (base k) = h).

(** [throttle(hash)]. *)
Definition throttle_key (now : Z) (key : AwsBedrockKey) : AwsBedrockKey :=
  let currentRateLimit := rateLimitedUntil (base key) in
  let nextRateLimit := now + KEY_REUSE_DELAY in
  with_key (set_rateLimit now (Z.max currentRateLimit nextRateLimit) (base key))
           key.

Definition throttle (now : Z) (h : string) (keys : Pool) : Pool :=
  JS.update_first (has_hash h) (throttle_key now) keys.

(** [markRateLimited(keyHash)]. *)
Definition markRateLimited (now : Z) (keyHash : string) (keys : Pool) : Pool :=
  JS.update_first (has_hash keyHash)
    (fun key => with_key (set_rateLimit now (now + RATE_LIMIT_LOCKOUT) (base key))
                         key)
    keys.

(** [getLockoutPeriod = createGenericGetLockoutPeriod(() => this.keys)]. *)
Definition getLockoutPeriod (keys : Pool) (now : Z) (family : ModelFamily) : Z :=
  createGenericGetLockoutPeriod keys now (Some family).

Section Get.
Variable getAwsBedrockModelFamily : string -> ModelFamily.
Variable allowAwsLogging : bool.

Definition neededVariantId (model : string) : string :=
  if JS.includes model "claude-2" then "claude-v2" else model.

Definition available (model : string) (k : AwsBedrockKey) : bool :=
  let neededFamily := getAwsBedrockModelFamily model in
  negb (isDisabled (base k)) &&
  (allowAwsLogging || negb (bool_decide (awsLoggingStatus k = enabled))) &&
  family_in neededFamily (modelFamilies (base k)) &&
  JS.some (fun m => JS.includes m (neededVariantId model)) (modelIds k).

Definition hasInferenceProfile (model : string) (a b : nat * AwsBedrockKey) : Z :=
  let aMatch :=
    JS.num_of_bool
      (JS.some (fun p => JS.includes p model) (inferenceProfileIds (snd a))) in
  let bMatch :=
    JS.num_of_bool
      (JS.some (fun p => JS.includes p model) (inferenceProfileIds (snd b))) in
  aMatch - bMatch.

Definition get (now : Z) (model : string) (keys : Pool)
    : option (AwsBedrockKey * Pool) :=
  let availableKeys :=
    List.filter (fun p => available model (snd p)) (imap pair keys) in
  match prioritizeKeys now availableKeys (Some (hasInferenceProfile model)) with
  | [] => None
  | (i, selectedKey) :: _ =>
      let keys1 := alter (touch now) i keys in
      let keys2 := throttle now (hash (base selectedKey)) keys1 in
      match keys2 !! i with
      | Some copy => Some (copy, keys2)
      | None => None
      end
  end.

End Get.

(** [disable(key)], [available()] and [recheck()]. *)
Definition disable (key : AwsBedrockKey) (keys : Pool) : Pool :=
  generic_disable (hash (base key)) keys.

Definition available_count (keys : Pool) : nat := generic_available keys.

Definition recheck (now : Z) (keys : Pool) : option Pool :=
  generic_recheck now keys.

End Aws.

(** ** Mistral AI key provider (shared/key-management/mistral-ai/provider.ts) *)

Module Mistral.

(** A [MistralAIKey] adds nothing but usage counters to [Key]. *)
Abbreviation MistralAIKey := Key.
Abbreviation Pool := (list Key).

Definition RATE_LIMIT_LOCKOUT : Z := 2000.
Definition KEY_REUSE_DELAY : Z := 500.

(** The record the constructor creates for a configured secret. *)
Definition newKey (h : string) : MistralAIKey :=
  mkKey h [mistral_tiny; mistral_small; mistral_medium; mistral_large]
        false false 0 0 0 0.

Definition has_hash (h : string) (k : MistralAIKey) : bool :=
  bool_decide (hash k = h).

(** [throttle(hash)]. *)
Definition throttle_key (now : Z) (key : MistralAIKey) : MistralAIKey :=
  let currentRateLimit := rateLimitedUntil key in
  let nextRateLimit := now + KEY_REUSE_DELAY in
  set_rateLimit now (Z.max currentRateLimit nextRateLimit) key.

Definition throttle (now : Z) (h : string) (keys : Pool) : Pool :=
  JS.update_first (has_hash h) (throttle_key now) keys.

(** [get(_model)]: the model is not looked at; [None] is the thrown
    [HttpError(402)]. *)
Definition get (now : Z) (_model : string) (keys : Pool)
    : option (MistralAIKey * Pool) :=
  let availableKeys :=
    List.filter (fun p => negb (isDisabled (snd p))) (imap pair keys) in
  match prioritizeKeys now availableKeys None with
  | [] => None
  | (i, selectedKey) :: _ =>
      let keys1 := alter (touch now) i keys in
      let keys2 := throttle now (hash selectedKey) keys1 in
      match keys2 !! i with
      | Some copy => Some (copy, keys2)
      | None => None
      end
  end.

Definition disable (key : MistralAIKey) (keys : Pool) : Pool :=
  generic_disable (hash key) keys.

Definition available (keys : Pool) : nat := generic_available keys.

Definition markRateLimited (now : Z) (keyHash : string) (keys : Pool)
    : option Pool :=
  generic_markRateLimited RATE_LIMIT_LOCKOUT now keyHash keys.

(** [getLockoutPeriod = createGenericGetLockoutPeriod(() => this.keys)]. *)
Definition getLockoutPeriod (keys : Pool) (now : Z) (family : ModelFamily) : Z :=
  createGenericGetLockoutPeriod keys now (Some family).

End Mistral.

(** ** Request manager (proxy/middleware/request/proxy-req-manager.ts) *)

Module ReqManager.

(** [req.path] is Express's getter for the pathname of [req.url]: the part
    of the request target that precedes the query string. *)
Fixpoint pathname (u : string) : string :=
  match u with
  | EmptyString => EmptyString
  | String c u' =>
      if Ascii.eqb c "?"%char then EmptyString else String c (pathname u')
  end.

Section Manager.
Context {Body SignedRequest ApiKey : Type}.

(** The part of the Express request that the manager touches.  [headers]
    is Node's header object, keyed by lower-cased field name. *)
Record Request := mkRequest {
  headers : gmap string string;
  url : string;
  body : Body;
  key : option ApiKey;
  signedRequest : option SignedRequest
}.

Definition path (r : Request) : string := pathname (url r).

(** [a || b] on two optional header values: the empty string is falsy. *)
Definition js_or (a b : option string) : option string :=
  match a with
  | Some EmptyString | None => b
  | Some v => Some v
  end.

(** Express's [req.get(name)]: a case-insensitive lookup in which the
    [Referer] and [Referrer] fields are interchangeable
    ([this.headers.referrer || this.headers.referer]).  It raises a
    [TypeError] for an empty name; the callers below test for that. *)
Definition get (r : Request) (name : string) : option string :=
  let lc := JS.toLowerCase name in
  if bool_decide (lc = "referer") || bool_decide (lc = "referrer")
  then js_or (headers r !! "referrer") (headers r !! "referer")
  else headers r !! lc.

Definition with_headers (h : gmap string string) (r : Request) : Request :=
  mkRequest h (url r) (body r) (key r) (signedRequest r).
Definition with_url (u : string) (r : Request) : Request :=
  mkRequest (headers r) u (body r) (key r) (signedRequest r).
Definition with_body (b : Body) (r : Request) : Request :=
  mkRequest (headers r) (url r) b (key r) (signedRequest r).
Definition with_key (k : option ApiKey) (r : Request) : Request :=
  mkRequest (headers r) (url r) (body r) k (signedRequest r).
Definition with_signedRequest (s : option SignedRequest) (r : Request) : Request :=
  mkRequest (headers r) (url r) (body r) (key r) s.

(** [ProxyReqMutation]: the [target] tag with the [key] and the
    [originalValue] that belong to it. *)
Inductive ProxyReqMutation :=
| header_mutation (key : string) (originalValue : option string)
| path_mutation (originalValue : string)
| body_mutation (originalValue : Body)
| api_key_mutation (originalValue : option ApiKey)
| signed_request_mutation (originalValue : option SignedRequest).

(** The manager: the request it wraps and the mutation log, oldest entry
    first ([push] appends). *)
Record ProxyReqManager := mkManager {
  req : Request;
  mutations : list ProxyReqMutation
}.

Definition new_manager (r : Request) : ProxyReqManager := mkManager r [].

(** The mutating methods.  [None] is the [TypeError] of [req.get("")]. *)
Definition setHeader (name newValue : string) (m : ProxyReqManager)
    : option ProxyReqManager :=
  if bool_decide (name = "") then None
  else
    let originalValue := get (req m) name in
    Some (mkManager
            (with_headers (<[JS.toLowerCase name := newValue]> (headers (req m)))
                          (req m))
            (mutations m ++ [header_mutation name originalValue])).

Definition removeHeader (name : string) (m : ProxyReqManager)
    : option ProxyReqManager :=
  if bool_decide (name = "") then None
  else
    let originalValue := get (req m) name in
    Some (mkManager
            (with_headers (delete (JS.toLowerCase name) (headers (req m))) (req m))
            (mutations m ++ [header_mutation name originalValue])).

Definition setBody (newBody : Body) (m : ProxyReqManager) : ProxyReqManager :=
  mkManager (with_body newBody (req m))
            (mutations m ++ [body_mutation (body (req m))]).

Definition setKey (newKey : ApiKey) (m : ProxyReqManager) : ProxyReqManager :=
  mkManager (with_key (Some newKey) (req m))
            (mutations m ++ [api_key_mutation (key (req m))]).

Definition setPath (newPath : string) (m : ProxyReqManager) : ProxyReqManager :=
  mkManager (with_url newPath (req m))
            (mutations m ++ [path_mutation (path (req m))]).

Definition setSignedRequest (newSignedRequest : option SignedRequest)
    (m : ProxyReqManager) : ProxyReqManager :=
  mkManager (with_signedRequest newSignedRequest (req m))
            (mutations m ++ [signed_request_mutation (signedRequest (req m))]).

Definition hasChanged (m : ProxyReqManager) : bool :=
  negb (bool_decide (mutations m = [])) .

(** One iteration of the loop in [revert]. *)
Definition revert_mutation (r : Request) (mutation : ProxyReqMutation) : Request :=
  match mutation with
  | header_mutation key originalValue =>
      match originalValue with
      | None => with_headers (delete (JS.toLowerCase key) (headers r)) r
      | Some v => with_headers (<[JS.toLowerCase key := v]> (headers r)) r
      end
  | path_mutation originalValue => with_url originalValue r
  | body_mutation originalValue => with_body originalValue r
  | api_key_mutation _ => r
  | signed_request_mutation originalValue => with_signedRequest originalValue r
  end.

Definition revert (m : ProxyReqManager) : ProxyReqManager :=
  mkManager (fold_left revert_mutation (rev (mutations m)) (req m)) [].

(** A call made by a mutator on the manager. *)
Inductive Call :=
| call_setHeader (name newValue : string)
| call_removeHeader (name : string)
| call_setBody (newBody : Body)
| call_setKey (newKey : ApiKey)
| call_setPath (newPath : string)
| call_setSignedRequest (newSignedRequest : option SignedRequest).

Definition perform (c : Call) (m : ProxyReqManager) : option ProxyReqManager :=
  match c with
  | call_setHeader name v => setHeader name v m
  | call_removeHeader name => removeHeader name m
  | call_setBody b => Some (setBody b m)
  | call_setKey k => Some (setKey k m)
  | call_setPath p => Some (setPath p m)
  | call_setSignedRequest s => Some (setSignedRequest s m)
  end.

(** A sequence of calls; it stops at the first one that throws. *)
Fixpoint perform_all (cs : list Call) (m : ProxyReqManager)
    : option ProxyReqManager :=
  match cs with
  | [] => Some m
  | c :: cs' =>
      match perform c m with
      | Some m' => perform_all cs' m'
      | None => None
      end
  end.

(** What a client-side observer of the request sees: headers, body, path
    and signed request. *)
Definition same_observable (r1 r2 : Request) : Prop :=
  headers r1 = headers r2 /\ body r1 = body r2 /\ path r1 = path r2 /\
  signedRequest r1 = signedRequest r2.

(** The header name a call looks up through [req.get], if any. *)
Definition header_name (c : Call) : option string :=
  match c with
  | call_setHeader name _ | call_removeHeader name => Some name
  | _ => None
  end.

(** A header name outside the [Referer]/[Referrer] alias pair. *)
Definition unaliased (name : string) : bool :=
  negb (bool_decide (JS.toLowerCase name = "referer")) &&
  negb (bool_decide (JS.toLowerCase name = "referrer")).

Definition unaliased_call (c : Call) : bool :=
  match header_name c with
  | Some name => unaliased name
  | None => true
  end.

(** [stripHeaders] (mutators/strip-headers.ts).  The callback of
    [Object.keys(manager.request.headers).forEach] removes the keys that
    start with [sec-]; a map does not record the order in which
    [Object.keys] lists them, and the headers that result do not depend on
    it. *)
Definition stripHeaders (m : ProxyReqManager) : option ProxyReqManager :=
  m ← removeHeader "origin" m;
  m ← removeHeader "referer" m;
  m ← perform_all
        (map call_removeHeader
           (List.filter (String.prefix "sec-")
                        (map fst (map_to_list (headers (req m))))))
        m;
  perform_all
    (map call_removeHeader
       [ "tailscale-user-login"; "tailscale-user-name";
         "tailscale-headers-info"; "tailscale-user-profile-pic";
         "cf-connecting-ip"; "cf-ray"; "cf-visitor"; "cf-warp-tag-id";
         "forwarded"; "true-client-ip"; "x-forwarded-for";
         "x-forwarded-host"; "x-forwarded-proto"; "x-real-ip" ])
    m.

(** [addV1] (proxy/add-v1.ts): the request handed to [next()]. *)
Definition addV1 (r : Request) : Request :=
  if negb (String.prefix "/v1/" (path r))
     && negb (String.prefix "/v1beta/" (path r))
  then with_url ("/v1" ++ url r) r
  else r.

End Manager.

Arguments Request : clear implicits.
Arguments ProxyReqManager : clear implicits.
Arguments ProxyReqMutation : clear implicits.
Arguments Call : clear implicits.

(** [stripHeaders] (mutators/strip-headers.ts), up to its first two calls. *)
Definition stripHeaders_prefix {Body SignedRequest ApiKey}
    : list (Call Body SignedRequest ApiKey) :=
  [call_removeHeader "origin"; call_removeHeader "referer"].

End ReqManager.

(** ** Request queue (proxy/queue.ts) *)

Module Queue.

(** The fields of the in-flight request that the queue reads or writes.
    [aborted] is [req.socket.destroyed || req.res?.writableEnded];
    [stream] is [stream === "true" || stream === true || req.isStreaming];
    [modelFamily] is [getModelFamilyForRequest(req)], which caches its
    answer on the request. *)
Record Request : Set := mkRequest {
  id : nat;
  user : option string;
  risuToken : option string;
  ip : string;
  modelFamily : ModelFamily;
  startTime : Z;
  promptTokens : option Z;
  outputTokens : option Z;
  retryCount : Z;
  stream : bool;
  headersSent : bool;
  aborted : bool;
  queueOutTime : Z
}.

Definition with_queueOutTime (t : Z) (r : Request) : Request :=
  mkRequest (id r) (user r) (risuToken r) (ip r) (modelFamily r) (startTime r)
            (promptTokens r) (outputTokens r) (retryCount r) (stream r)
            (headersSent r) (aborted r) t.

Definition with_retryCount (n : Z) (r : Request) : Request :=
  mkRequest (id r) (user r) (risuToken r) (ip r) (modelFamily r) (startTime r)
            (promptTokens r) (outputTokens r) n (stream r)
            (headersSent r) (aborted r) (queueOutTime r).

Definition with_headersSent (b : bool) (r : Request) : Request :=
  mkRequest (id r) (user r) (risuToken r) (ip r) (modelFamily r) (startTime r)
            (promptTokens r) (outputTokens r) (retryCount r) (stream r)
            b (aborted r) (queueOutTime r).

(** The module-level [queue] array. *)
Abbreviation queue_t := (list Request).

Definition getIdentifier (req : Request) : string :=
  match user req with
  | Some token => token
  | None =>
      match risuToken req with
      | Some tk => tk
      | None => ip req
      end
  end.

Definition sharesIdentifierWith (incoming queued : Request) : bool :=
  bool_decide (getIdentifier queued = getIdentifier incoming).

(** The errors [enqueue] raises. *)
Inductive EnqueueError : Set :=
| AbortedRequest        (* Error("Attempt to enqueue aborted request.") *)
| TooManyRequestsError
| UnresponsiveClient    (* initStreaming's join timeout *)
| BadRequestError.      (* streaming required under load *)

Section Enqueue.
(** Process-wide settings: [USER_CONCURRENCY_LIMIT], [LOAD_THRESHOLD] and
    the number of distinct client addresses reported by the rate limiter. *)
Variable USER_CONCURRENCY_LIMIT : Z.
Variable LOAD_THRESHOLD : Q.
Variable getUniqueIps : Z.

Definition getProxyLoad (queue : queue_t) : Z :=
  Z.max getUniqueIps (Z.of_nat (length queue)).

(** The guards of [enqueue] that run before anything is awaited.  [inr
    true] says that the request goes on to [await initStreaming(req)]. *)
Definition enqueue_guards (req : Request) (queue : queue_t)
    : EnqueueError + bool :=
  if aborted req then inl AbortedRequest
  else
    let enqueuedRequestCount :=
      length (List.filter (sharesIdentifierWith req) queue) in
    if USER_CONCURRENCY_LIMIT <=? Z.of_nat enqueuedRequestCount
    then inl TooManyRequestsError
    else if stream req then inr (negb (headersSent req))
    else if Qle_bool (inject_Z (getProxyLoad queue)) LOAD_THRESHOLD
         then inr false
         else inl BadRequestError.

(** [queue.push(req); req.queueOutTime = 0]. *)
Definition push (req : Request) (queue : queue_t) : queue_t :=
  queue ++ [with_queueOutTime 0 req].

(** [enqueue(req)] when nothing else runs while the join message drains.
    [joinDrained] tells whether the client consumed the join message
    before [QUEUE_JOIN_TIMEOUT]. *)
Definition enqueue (joinDrained : bool) (req : Request) (queue : queue_t)
    : EnqueueError + queue_t :=
  match enqueue_guards req queue with
  | inl e => inl e
  | inr false => inr (push req queue)
  | inr true =>
      if joinDrained then inr (push (with_headersSent true req) queue)
      else inl UnresponsiveClient
  end.

Definition reenqueueRequest (joinDrained : bool) (req : Request)
    (queue : queue_t) : EnqueueError + queue_t :=
  enqueue joinDrained (with_retryCount (retryCount req + 1) req) queue.

End Enqueue.

(** *** Dequeue *)

Section Dequeue.
(** [config.tokensPunishmentFactor]. *)
Variable tokensPunishmentFactor : Q.


(** The key the reducer compares. *)
Definition weight (req : Request) : Q :=
  inject_Z (startTime req)
  + tokensPunishmentFactor
    * inject_Z (default 0 (promptTokens req) + default 0 (outputTokens req)).

Definition Qlt_bool (a b : Q) : bool := negb (Qle_bool b a).

(** The callback of [modelQueue.reduce], on requests paired with their
    index in [queue]. *)
Definition pick (prev curr : nat * Request) : nat * Request :=
  if Qlt_bool (weight (snd prev)) (weight (snd curr)) then prev else curr.

(** [dequeue(partition)]: the request handed back, with its
    [queueOutTime] stamped, and the queue without it. *)
Definition dequeue (now : Z) (partition : ModelFamily) (queue : queue_t)
    : option Request * queue_t :=
  let modelQueue :=
    List.filter (fun p => bool_decide (modelFamily (snd p) = partition))
                (imap pair queue) in
  match modelQueue with
  | [] => (None, queue)
  | first :: rest =>
      let '(i, req) := fold_left pick rest first in
      (Some (with_queueOutTime now req), delete i queue)
  end.



End Dequeue.

(** *** Cleaning *)

Section CleanQueue.
(** [!req.res || req.res.writableEnded], read when the request is killed. *)
Variable ended : Request -> bool.

(** [queue.indexOf(req)] on queue entries paired with the identity of their
    object, followed by [queue.splice(index, 1)]: an index of -1 makes
    [splice] remove the last entry. *)
Definition indexOf (object : nat) (queue : list (nat * Request)) : option nat :=
  fst <$> list_find (fun entry => fst entry = object) queue.

Definition splice_indexOf (object : nat) (queue : list (nat * Request))
    : list (nat * Request) :=
  match indexOf object queue with
  | Some index => delete index queue
  | None => delete (length queue - 1)%nat queue
  end.

(** [killQueuedRequest(req)]: the queue after the call, and whether the
    client was sent the "request killed" error. *)
Definition killQueuedRequest (req : nat * Request)
    (queue : list (nat * Request)) : list (nat * Request) * bool :=
  if ended (snd req) then (splice_indexOf (fst req) queue, false)
  else (queue, true).

(** The first half of [cleanQueue()]: the queue it leaves and the requests
    it answered with the error, in the order it killed them.  The objects
    of the queue are told apart by the index they have when it starts. *)
Definition cleanQueue (now : Z) (queue : queue_t) : queue_t * list Request :=
  let objects := imap pair queue in
  let oldRequests :=
    List.filter (fun entry => 5 * 60 * 1000 <? now - startTime (snd entry))
                objects in
  let '(objects', answered) :=
    fold_left
      (fun '(current, answered) req =>
         let '(current', sent) := killQueuedRequest req current in
         (current', if sent : bool then answered ++ [snd req] else answered))
      oldRequests (objects, []) in
  (map snd objects', answered).

End CleanQueue.

(** *** Heartbeats *)

Section Heartbeat.
(** [MIN_HEARTBEAT_SIZE], [MAX_HEARTBEAT_SIZE], [LOAD_THRESHOLD],
    [PAYLOAD_SCALE_FACTOR] and the rate limiter's count of client
    addresses. *)
Variable MIN_HEARTBEAT_SIZE MAX_HEARTBEAT_SIZE : Z.
Variable LOAD_THRESHOLD PAYLOAD_SCALE_FACTOR : Q.
Variable getUniqueIps : Z.

(** [getHeartbeatSize()]. *)
Definition getHeartbeatSize (queue : queue_t) : Q :=
  let load := inject_Z (getProxyLoad getUniqueIps queue) in
  if Qle_bool load LOAD_THRESHOLD then inject_Z MIN_HEARTBEAT_SIZE
  else
    let excessLoad := (load - LOAD_THRESHOLD)%Q in
    let size :=
      (inject_Z MIN_HEARTBEAT_SIZE
       + (excessLoad * PAYLOAD_SCALE_FACTOR) * (excessLoad * PAYLOAD_SCALE_FACTOR))%Q in
    if Qlt_bool (inject_Z MAX_HEARTBEAT_SIZE) size
    then inject_Z MAX_HEARTBEAT_SIZE
    else size.

End Heartbeat.

(** [removeFromQueue], the close handler of a queued request. *)
Definition removeFromQueue (i : nat) (queue : queue_t) : queue_t :=
  delete i queue.

End Queue.

(** ** Wait-time estimator (proxy/queue.ts) *)

Module WaitTime.

(** Wait times are JavaScript numbers; the estimator is modelled over the
    rationals, which agree with doubles wherever the arithmetic is exact. *)
Local Open Scope Q_scope.

Record WaitSample : Set := mkWaitSample {
  partition : ModelFamily;
  start : Z;
  end_ : Z
}.

Definition WAIT_TIME_INTERVAL : Z := 3000.
Definition ALPHA_HISTORICAL : Q := 2 # 10.
Definition ALPHA_CURRENT : Q := 3 # 10.

(** A [Map<ModelFamily, number>] read through [.get(k) ?? 0]. *)
Definition EmaMap : Type := ModelFamily -> Q.

Definition set (m : EmaMap) (k : ModelFamily) (v : Q) : EmaMap :=
  fun k' => if decide (k' = k) then v else m k'.

Record Estimator : Type := mkEstimator {
  waitTimes : list WaitSample;
  historicalEmas : EmaMap;
  currentEmas : EmaMap;
  estimates : EmaMap
}.



(** The second half of [cleanQueue()]:
    [waitTimes.splice(0, waitTimes.findIndex(stale) + 1)].  Without a
    stale sample [findIndex] answers -1 and nothing is removed. *)
Definition cleanQueue (now : Z) (e : Estimator) : Estimator :=
  let index :=
    list_find (fun waitTime => (300 * 1000 < now - end_ waitTime)%Z)
              (waitTimes e) in
  let waitTimes' :=
    match index with
    | Some (i, _) => drop (S i) (waitTimes e)
    | None => waitTimes e
    end in
  mkEstimator waitTimes' (historicalEmas e) (currentEmas e) (estimates e).

Definition sumQ (l : list Q) : Q := fold_left Qplus l 0.

Definition recentAverage (now : Z) (p : ModelFamily) (samples : list WaitSample)
    : Q :=
  let recentWaits :=
    map (fun wait => inject_Z (end_ wait - start wait))
        (List.filter
           (fun wait =>
              let isSamePartition := bool_decide (partition wait = p) in
              let isRecent := (now - end_ wait <? 300 * 1000)%Z in
              isSamePartition && isRecent)
           samples) in
  match recentWaits with
  | [] => 0
  | _ => sumQ recentWaits / inject_Z (Z.of_nat (length recentWaits))
  end.

(** [Math.max(...currentWaits, 0)]. *)
Definition longestCurrentWait (now : Z) (p : ModelFamily)
    (queue : Queue.queue_t) : Z :=
  fold_right Z.max 0%Z
    (map (fun req => (now - Queue.startTime req)%Z)
         (List.filter (fun req => bool_decide (Queue.modelFamily req = p)) queue)).

(** [calculateWaitTime(partition)]: the value returned and the estimator
    with both averages advanced. *)
Definition calculateWaitTime (now : Z) (queue : Queue.queue_t)
    (p : ModelFamily) (e : Estimator) : Q * Estimator :=
  let recent := recentAverage now p (waitTimes e) in
  let historicalEma := historicalEmas e p in
  let historicalEmas' :=
    set (historicalEmas e) p
        (ALPHA_HISTORICAL * recent + (1 - ALPHA_HISTORICAL) * historicalEma) in
  let longest := inject_Z (longestCurrentWait now p queue) in
  let currentEma := currentEmas e p in
  let currentEmas' :=
    set (currentEmas e) p
        (ALPHA_CURRENT * longest + (1 - ALPHA_CURRENT) * currentEma) in
  ((historicalEma + currentEma) / 2,
   mkEstimator (waitTimes e) historicalEmas' currentEmas' (estimates e)).

(** The body of the [setInterval] callback. *)
Definition tick (now : Z) (queue : Queue.queue_t) (e : Estimator) : Estimator :=
  fold_left
    (fun e modelFamily =>
       let '(w, e') := calculateWaitTime now queue modelFamily e in
       mkEstimator (waitTimes e') (historicalEmas e') (currentEmas e')
                   (set (estimates e') modelFamily w))
    MODEL_FAMILIES e.



End WaitTime.

(** ** Upstream response handling (proxy/middleware/response/index.ts) *)

Module Response.

Inductive LLMService : Set :=
| openai | anthropic | google_ai | mistral_ai | aws | gcp | azure.

#[global] Instance LLMService_eq_dec : EqDecision LLMService.
Proof. solve_decision. Defined.

(** What a handler does to its collaborators, in program order. *)
Inductive Action : Set :=
| markRateLimited                       (* keyPool.markRateLimited(req.key) *)
| disable (reason : string)             (* keyPool.disable(req.key, reason) *)
| update (patch : string)               (* keyPool.update(req.key, {patch: ...}) *)
| refundLastAttempt
| sendProxyError (statusCode : Z)       (* error payload written to the client *)
| sendErrorToClient                     (* error rendered for the client *)
| classifyErrorAndSend                  (* middleware/common.ts *)
| writeSpoofedEvent                     (* error event and [DONE] on the stream *)
| updateRateLimits                      (* trackKeyRateLimit *)
| forwardResponse                       (* the middleware after the classifier *)
| endResponse                           (* res.end() *)
| sendInternalError.                    (* res.status(500).json(...) *)

(** The exceptions that leave a handler. *)
Inductive Thrown : Set :=
| RetryableError
| HttpError (status : Z)
| TypeError
| EnqueueFailed (e : Queue.EnqueueError)
| BadRequest
| OtherError.

(** The queue and the trace of actions, threaded through every handler;
    a handler returns a value or throws. *)
Record World : Set := mkWorld {
  queue : Queue.queue_t;
  trace : list Action
}.

Inductive Result (A : Type) : Type :=
| Returned (a : A)
| Threw (t : Thrown).
Arguments Returned {A} a.
Arguments Threw {A} t.

Definition M (A : Type) : Type := World -> Result A * World.




(** The error payload parsed from the response body: the members of
    [body.error] the classifier reads, and the top-level [message]. *)
Record ErrorObject : Set := mkErrorObject {
  code : option string;
  type : option string;
  emessage : option string;
  status : option string;
  details_reason : option string     (* details?.[0]?.reason *)
}.

Record ProxiedErrorPayload : Set := mkPayload {
  error : option ErrorObject;
  message : option string
}.

(** The decoded body: a string, a JSON object, or a JSON array. *)
Inductive Body : Set :=
| text_body (s : string)
| object_body (p : ProxiedErrorPayload)
| array_body (ps : list ProxiedErrorPayload).













Section Handlers.
(** The queue's settings and the fate of a join message, should the
    re-enqueue have to open the event stream. *)
Variable USER_CONCURRENCY_LIMIT : Z.
Variable LOAD_THRESHOLD : Q.
Variable getUniqueIps : Z.
Variable joinDrained : bool.

(** [await reenqueueRequest(req)]: an error of [enqueue] propagates. *)
Definition reenqueueRequest (req : Queue.Request) : M unit :=
  fun w =>
    match Queue.reenqueueRequest USER_CONCURRENCY_LIMIT LOAD_THRESHOLD
            getUniqueIps joinDrained req (queue w) with
    | inl e => (Threw (EnqueueFailed e), w)
    | inr q' => (Returned tt, mkWorld q' (trace w))
    end.










(** Whether the classifier goes on to answer the client or leaves through
    one of the bare [return]s of its 403 branch. *)
Inductive Next : Set := send | stop.









End Handlers.


End Response.

(** ** Outbound payload preprocessor
       (proxy/middleware/request/preprocessors/transform-outbound-payload.ts) *)

Module Preprocess.

Inductive APIFormat : Set :=
| openai | openai_text | openai_image
| anthropic_chat | anthropic_text
| google_ai | mistral_ai | mistral_text.

#[global] Instance APIFormat_eq_dec : EqDecision APIFormat.
Proof. solve_decision. Defined.

(** Modelled from the spec: the request schemas of shared/api-schemas
    ([API_REQUEST_VALIDATORS]) are not part of the sources at hand.  A body
    is a JSON text together with the schema it is written in (a closed sum
    over the known variants), and it conforms to an API format when it
    carries that format's tag. *)
Record Body : Set := mkBody {
  schema : APIFormat;
  json : string
}.

Definition conforms (format : APIFormat) (b : Body) : Prop := schema b = format.

Record Request : Set := mkRequest {
  inboundApi : APIFormat;
  outboundApi : APIFormat;
  service : Response.LLMService;
  body : Body;
  retryCount : Z
}.

Inductive PreprocessError : Set :=
| ZodError
| BadRequestError
| TransformError.

(** *** The passthrough preprocessor *)

Module Passthrough.

(** Both paths return with the request as it came; the second one logs
    "Passthrough mode - no validation or transformation applied". *)
Definition transformOutboundPayload (req : Request) : PreprocessError + Request :=
  let alreadyTransformed := 0 <? retryCount req in
  if alreadyTransformed then inr req
  else inr req.

End Passthrough.

(** *** The translating preprocessor *)

Module Translating.

Section Transform.
(** The collaborators that live in shared/api-schemas and
    proxy/middleware/common: the request classifiers, the schema
    validators ([None] is a thrown [ZodError]), the table of pairwise
    transformers, and the three steps of the Mistral prompt repair. *)
Variable isTextGenerationRequest isImageGenerationRequest : Request -> bool.
Variable API_REQUEST_VALIDATORS : APIFormat -> Body -> option Body.
Variable API_REQUEST_TRANSFORMERS :
  APIFormat -> APIFormat -> option (Request -> PreprocessError + Body).
Variable fixMistralPrompt : Body -> Body -> Body.
Variable lastMessageIsAssistant : Body -> bool.
Variable setLastMessagePrefix : Body -> Body.

Definition with_body (b : Body) (req : Request) : Request :=
  mkRequest (inboundApi req) (outboundApi req) (service req) b (retryCount req).

Definition with_outboundApi (f : APIFormat) (req : Request) : Request :=
  mkRequest (inboundApi req) f (service req) (body req) (retryCount req).

Definition applyMistralPromptFixes (req : Request) : PreprocessError + Request :=
  if bool_decide (inboundApi req = mistral_ai) then
    match API_REQUEST_VALIDATORS mistral_ai (body req) with
    | None => inl ZodError
    | Some result =>
        let req1 := with_body (fixMistralPrompt result (body req)) req in
        if lastMessageIsAssistant (body req1)
           && bool_decide (service req1 = Response.aws)
        then inr (with_outboundApi mistral_text
                    (with_body (setLastMessagePrefix (body req1)) req1))
        else inr req1
    end
  else inr req.

Definition transformOutboundPayload (req : Request) : PreprocessError + Request :=
  let alreadyTransformed := 0 <? retryCount req in
  let notTransformable :=
    negb (isTextGenerationRequest req) && negb (isImageGenerationRequest req) in
  if alreadyTransformed then inr req
  else if notTransformable then inr req
  else
    match applyMistralPromptFixes req with
    | inl e => inl e
    | inr req1 =>
        let isNativePrompt :=
          bool_decide (inboundApi req1 = outboundApi req1) in
        if isNativePrompt then
          match API_REQUEST_VALIDATORS (inboundApi req1) (body req1) with
          | None => inl ZodError
          | Some result => inr (with_body result req1)
          end
        else
          match API_REQUEST_TRANSFORMERS (inboundApi req1) (outboundApi req1) with
          | Some transFn =>
              match transFn req1 with
              | inl e => inl e
              | inr b => inr (with_body b req1)
              end
          | None => inl BadRequestError
          end
    end.

End Transform.

End Translating.

End Preprocess.

(** ** The queue as a transition system *)

Module Scheduler.

Section Steps.
Variable USER_CONCURRENCY_LIMIT : Z.
Variable LOAD_THRESHOLD : Q.
Variable getUniqueIps : Z.
Variable tokensPunishmentFactor : Q.

(** The number of queue slots held by an identity. *)
Definition slots (ident : string) (queue : Queue.queue_t) : nat :=
  length (List.filter (fun r => bool_decide (Queue.getIdentifier r = ident)) queue).

(** Every queued identity is within [USER_CONCURRENCY_LIMIT]. *)
Definition within_limit (queue : Queue.queue_t) : Prop :=
  forall ident, Z.of_nat (slots ident queue) <= USER_CONCURRENCY_LIMIT.

(** The ways the [queue] array changes when every call of [enqueue] runs
    from its guards to its [push] with nothing in between: an accepted
    [enqueue], a [dequeue], and the removal of an aborted or stalled
    request. *)
Inductive atomic_step : Queue.queue_t -> Queue.queue_t -> Prop :=
| step_enqueue joinDrained req queue queue' :
    Queue.enqueue USER_CONCURRENCY_LIMIT LOAD_THRESHOLD getUniqueIps
                  joinDrained req queue = inr queue' ->
    atomic_step queue queue'
| step_dequeue now partition queue :
    atomic_step queue
      (snd (Queue.dequeue tokensPunishmentFactor now partition queue))
| step_remove i queue :
    atomic_step queue (Queue.removeFromQueue i queue).

Inductive reachable : Queue.queue_t -> Prop :=
| reachable_start : reachable []
| reachable_step queue queue' :
    reachable queue -> atomic_step queue queue' -> reachable queue'.

(** [enqueue] is an async function: a streaming request whose event stream
    is not yet open is suspended at [await initStreaming(req)] after it
    has passed the guards, and is pushed when the join message has
    drained.  [joining] holds the requests suspended there. *)
Record State : Set := mkState {
  queue : Queue.queue_t;
  joining : list Queue.Request
}.

Inductive async_step : State -> State -> Prop :=
| async_atomic s queue' :
    atomic_step (queue s) queue' ->
    async_step s (mkState queue' (joining s))
| async_join_begin s req :
    Queue.enqueue_guards USER_CONCURRENCY_LIMIT LOAD_THRESHOLD getUniqueIps
                         req (queue s) = inr true ->
    async_step s (mkState (queue s) (joining s ++ [req]))
| async_join_drained s pre req post :
    joining s = pre ++ req :: post ->
    async_step s
      (mkState (Queue.push (Queue.with_headersSent true req) (queue s))
               (pre ++ post))
| async_join_timeout s pre req post :
    joining s = pre ++ req :: post ->
    async_step s (mkState (queue s) (pre ++ post)).

Inductive async_reachable : State -> Prop :=
| async_start : async_reachable (mkState [] [])
| async_next s s' :
    async_reachable s -> async_step s s' -> async_reachable s'.

End Steps.

End Scheduler.

(** * Statements *)

(** ** Orders on keys *)

Module PrioritySpec.

Section Order.
Context {T : Type} `{KeyLike T}.

Definition rateLimited (now : Z) (k : T) : bool :=
  now <? rateLimitedUntil (key_of k).

(** The value of the optional tiebreaker; without one every pair ties. *)
Definition tiebreak (tiebreaker : option (T -> T -> Z)) (a b : T) : Z :=
  match tiebreaker with
  | Some f => f a b
  | None => 0
  end.

(** The four rules read one after the other, each deciding the pairs the
    earlier ones leave tied: [a] is ahead of [b] when (1) [a] is not rate
    limited and [b] is; else (2) both are rate limited and [a]'s lockout
    ends first; else (3) the tiebreaker prefers [a]; else (4) [a] was
    used longer ago. *)
Definition ahead (now : Z) (tiebreaker : option (T -> T -> Z)) (a b : T) : bool :=
  let ua := rateLimitedUntil (key_of a) in
  let ub := rateLimitedUntil (key_of b) in
  match rateLimited now a, rateLimited now b with
  | false, true => true
  | true, false => false
  | true, true =>
      if ua <? ub then true
      else if ub <? ua then false
      else if tiebreak tiebreaker a b <? 0 then true
      else if 0 <? tiebreak tiebreaker a b then false
      else lastUsed (key_of a) <? lastUsed (key_of b)
  | false, false =>
      if tiebreak tiebreaker a b <? 0 then true
      else if 0 <? tiebreak tiebreaker a b then false
      else lastUsed (key_of a) <? lastUsed (key_of b)
  end.

(** No element of [l] stands behind one it is ahead of. *)
Definition respects (R : T -> T -> bool) (l : list T) : Prop :=
  forall i j a b,
    (i < j)%nat -> l !! i = Some a -> l !! j = Some b -> R b a = false.

(** A tiebreaker that is a comparator: swapping its arguments flips the
    sign, and "not after" is transitive. *)
Definition is_comparator (tiebreaker : option (T -> T -> Z)) : Prop :=
  (forall a b, Z.sgn (tiebreak tiebreaker a b) = - Z.sgn (tiebreak tiebreaker b a))
  /\ (forall a b c, tiebreak tiebreaker a b <= 0 -> tiebreak tiebreaker b c <= 0 ->
                    tiebreak tiebreaker a c <= 0).

(** Rate-limited keys whose lockout ends at [u]. *)
Definition lockedUntil (now u : Z) (k : T) : bool :=
  rateLimited now k && (rateLimitedUntil (key_of k) =? u).

End Order.

End PrioritySpec.

(** The order [prioritizeKeys] establishes: [out] rearranges [keys]; a key
    that is not rate limited never stands behind one that is; rate-limited
    keys stand by increasing [rateLimitedUntil]; keys that are not rate
    limited stand by the tiebreaker and then by increasing [lastUsed]; and
    rate-limited keys with the same [rateLimitedUntil] stand as they stood
    in [keys]. *)
Definition prioritized {T : Type} `{KeyLike T} (now : Z)
    (tiebreaker : option (T -> T -> Z)) (keys out : list T) : Prop :=
  Permutation out keys /\
  (forall i j a b,
     (i < j)%nat -> out !! i = Some a -> out !! j = Some b ->
     (PrioritySpec.rateLimited now a = true ->
      PrioritySpec.rateLimited now b = true /\
      rateLimitedUntil (key_of a) <= rateLimitedUntil (key_of b)) /\
     (PrioritySpec.rateLimited now b = false ->
      PrioritySpec.rateLimited now a = false /\
      PrioritySpec.tiebreak tiebreaker a b <= 0 /\
      (PrioritySpec.tiebreak tiebreaker a b = 0 ->
       lastUsed (key_of a) <= lastUsed (key_of b)))) /\
  (forall u,
     List.filter (PrioritySpec.lockedUntil now u) out =
     List.filter (PrioritySpec.lockedUntil now u) keys).

(** ** Sample data *)

Module Sample.

(** Two keys locked out until the same instant, the first one used more
    recently than the second. *)
Definition keyA : Key := mkKey "aaaaaaaa" [gpt4o] false false 5 0 400 500.
Definition keyB : Key := mkKey "bbbbbbbb" [gpt4o] false false 3 0 400 500.

(** A trial key and a paid key, neither rate limited. *)
Definition trialKey : OpenAI.OpenAIKey :=
  OpenAI.mkOpenAIKey (mkKey "aaaaaaaa" [gpt4o] false false 1 0 0 0)
                     None true false 0 0 ["gpt-4o"].
Definition paidKey : OpenAI.OpenAIKey :=
  OpenAI.mkOpenAIKey (mkKey "bbbbbbbb" [gpt4o] false false 7 0 0 0)
                     None false false 0 0 ["gpt-4o"].

End Sample.

(** ** The throttle applied by [get] *)

Module ThrottleSpec.

Section Generic.
Context {T : Type} `{KeyLike T}.



End Generic.


End ThrottleSpec.

(** The model-to-family tables on the model names used in the samples. *)
Definition sampleOpenAIFamily (model : string) : ModelFamily :=
  if bool_decide (model = "gpt-4o") then gpt4o else gpt4.


Module PoolSample.

(** A fresh OpenAI pool of one key; the pool after that key was handed out
    at 1000, a 429 response at 1500 carried the headers
    [x-ratelimit-reset-requests: 1s] and [x-ratelimit-reset-tokens: 1m],
    and the classifier then marked the key rate limited. *)
Definition fresh : list OpenAI.OpenAIKey := [OpenAI.newKey "aaaaaaaa"].

Definition limited_key : OpenAI.OpenAIKey :=
  OpenAI.mkOpenAIKey
    (mkKey "aaaaaaaa" [turbo; gpt4; gpt4_turbo; gpt4o] false false 1000 0
           1500 11500)
    None false false 10000 60000 [].

Definition limited : list OpenAI.OpenAIKey := [limited_key].




End PoolSample.

(** ** Lockout periods *)

Module LockoutSpec.

Section Generic.
Context {T : Type} `{KeyLike T}.

(** The enabled keys that serve a family. *)
Definition enabledKeys (family : ModelFamily) (keys : list T) : list T :=
  List.filter
    (fun k => negb (isDisabled (key_of k)) &&
              family_in family (modelFamilies (key_of k)))
    keys.

(** [period] is the lockout period of the keys [active] at [now], when a
    key's lockout ends at [expiry]: it is 0 exactly when some key's lockout
    has ended or there is no key at all, and otherwise it is the least
    remaining time [expiry k - now] among the keys. *)
Definition lockoutPeriod (expiry : T -> Z) (active : list T) (now period : Z)
    : Prop :=
  (period = 0 <-> (exists k, k ∈ active /\ expiry k <= now) \/ active = []) /\
  (period <> 0 ->
   (exists k, k ∈ active /\ period = expiry k - now) /\
   (forall k, k ∈ active -> period <= expiry k - now)).

End Generic.

(** The end of an OpenAI key's lockout as [getLockoutPeriod] computes it:
    the reset window counted from [rateLimitedAt], cut at 20 seconds. *)
Definition openaiExpiry (key : OpenAI.OpenAIKey) : Z :=
  rateLimitedAt (OpenAI.base key) + Z.min 20000 (OpenAI.resetTime key).

End LockoutSpec.

Module LockoutSample.

(** The fresh OpenAI pool after its key was handed out at 1000 and a
    response at 1500 carried [x-ratelimit-reset-requests: 1s] and
    [x-ratelimit-reset-tokens: 1m]. *)
Definition waiting_key : OpenAI.OpenAIKey :=
  OpenAI.mkOpenAIKey
    (mkKey "aaaaaaaa" [turbo; gpt4; gpt4_turbo; gpt4o] false false 1000 0
           1000 61000)
    None false false 1000 60000 [].

Definition waiting : list OpenAI.OpenAIKey := [waiting_key].

End LockoutSample.

Module SnapshotSample.


Definition old_key_used : OpenAI.OpenAIKey :=
  OpenAI.mkOpenAIKey (mkKey "aaaaaaaa" [gpt4; gpt4o] false false 1000 0 1000 2000)
                     None false false 1000 0 ["gpt-4"].



End SnapshotSample.

Module RevertSample.

(** A request that arrives with a [Referrer] header (and no [Referer]);
    bodies, signed requests and keys are strings here. *)
Definition incoming : ReqManager.Request string string string :=
  ReqManager.mkRequest {[ "referrer" := "https://chat.example" ]}
    "/v1/chat/completions" "{}" None None.

(** A request with the headers a chat client sends. *)
Definition plain : ReqManager.Request string string string :=
  ReqManager.mkRequest
    {[ "origin" := "https://chat.example"; "content-type" := "application/json" ]}
    "/v1/chat/completions?debug=1" "{}" None None.

(** The calls of a mutator stack: strip, authenticate, route, finalize. *)
Definition calls : list (ReqManager.Call string string string) :=
  [ ReqManager.call_removeHeader "origin";
    ReqManager.call_setKey "sk-secret";
    ReqManager.call_setHeader "Authorization" "Bearer sk-secret";
    ReqManager.call_setPath "/v1/messages";
    ReqManager.call_setSignedRequest (Some "signed");
    ReqManager.call_setHeader "Content-Length" "2";
    ReqManager.call_setBody "{}" ].

End RevertSample.

(** ** Scheduling *)

Module ScheduleSpec.



End ScheduleSpec.

Module QueueSample.

(** Three queued requests: two for [gpt4o], the later one with the smaller
    prompt, and one for [claude]. *)
Definition big : Queue.Request :=
  Queue.mkRequest 1 (Some "alice") None "10.0.0.1" gpt4o 1000
                  (Some 4000) (Some 1000) 0 false false false 0.
Definition small : Queue.Request :=
  Queue.mkRequest 2 (Some "bob") None "10.0.0.2" gpt4o 1200
                  (Some 10) (Some 10) 0 false false false 0.
Definition other : Queue.Request :=
  Queue.mkRequest 3 (Some "carol") None "10.0.0.3" claude 900
                  (Some 10) (Some 10) 0 false false false 0.

Definition queue : list Queue.Request := [big; other; small].

(** Only the [gpt4o] keys are free. *)
Definition lockout (family : ModelFamily) : Z :=
  if decide (family = gpt4o) then 0 else 2000.

End QueueSample.

(** ** Admission *)

Module AdmissionSpec.

(** [enqueue] answers every request whose identity already holds
    [USER_CONCURRENCY_LIMIT] queue slots with [TooManyRequestsError]. *)
Definition rejects_at_limit (USER_CONCURRENCY_LIMIT : Z) (LOAD_THRESHOLD : Q)
    (getUniqueIps : Z) : Prop :=
  forall joinDrained req queue,
    USER_CONCURRENCY_LIMIT
      <= Z.of_nat (Scheduler.slots (Queue.getIdentifier req) queue) ->
    Queue.enqueue USER_CONCURRENCY_LIMIT LOAD_THRESHOLD getUniqueIps
                  joinDrained req queue
    = inl Queue.TooManyRequestsError.

End AdmissionSpec.

Module AdmissionSample.

(** A request in the queue, and a second request of the same user whose
    client has gone away before [enqueue] is reached. *)
Definition queued : Queue.Request :=
  Queue.mkRequest 1 (Some "alice") None "10.0.0.1" gpt4o 1000
                  (Some 10) (Some 10) 0 false false false 0.
Definition gone : Queue.Request :=
  Queue.mkRequest 2 (Some "alice") None "10.0.0.1" gpt4o 1100
                  (Some 10) (Some 10) 0 false false true 0.
Definition second : Queue.Request :=
  Queue.mkRequest 3 (Some "alice") None "10.0.0.1" gpt4o 1100
                  (Some 10) (Some 10) 0 false false false 0.

(** Two streaming requests of one user, both still to open their event
    stream. *)
Definition stream1 : Queue.Request :=
  Queue.mkRequest 4 (Some "dave") None "10.0.0.4" gpt4o 1000
                  (Some 10) (Some 10) 0 true false false 0.
Definition stream2 : Queue.Request :=
  Queue.mkRequest 5 (Some "dave") None "10.0.0.4" gpt4o 1001
                  (Some 10) (Some 10) 0 true false false 0.

End AdmissionSample.

(** ** Wait-time estimates *)

Module EstimateSpec.

Local Open Scope Q_scope.

Section Tick.
Variable now : Z.
Variable queue : list Queue.Request.

(** The two averages of [p] after a tick, and the estimate it publishes. *)
Definition next_historical (e : WaitTime.Estimator) (p : ModelFamily) : Q :=
  WaitTime.ALPHA_HISTORICAL * WaitTime.recentAverage now p (WaitTime.waitTimes e)
  + (1 - WaitTime.ALPHA_HISTORICAL) * WaitTime.historicalEmas e p.

Definition next_current (e : WaitTime.Estimator) (p : ModelFamily) : Q :=
  WaitTime.ALPHA_CURRENT * inject_Z (WaitTime.longestCurrentWait now p queue)
  + (1 - WaitTime.ALPHA_CURRENT) * WaitTime.currentEmas e p.

Definition published (e : WaitTime.Estimator) (p : ModelFamily) : Q :=
  (WaitTime.historicalEmas e p + WaitTime.currentEmas e p) / 2.

Definition tick_step (e : WaitTime.Estimator) (modelFamily : ModelFamily)
    : WaitTime.Estimator :=
  let '(w, e') := WaitTime.calculateWaitTime now queue modelFamily e in
  WaitTime.mkEstimator (WaitTime.waitTimes e') (WaitTime.historicalEmas e')
    (WaitTime.currentEmas e') (WaitTime.set (WaitTime.estimates e') modelFamily w).

End Tick.



End EstimateSpec.

Module EstimateSample.





End EstimateSample.

(** ** Retries *)

Module RetrySpec.

Import Response.


Section Law.
Variable USER_CONCURRENCY_LIMIT : Z.
Variable LOAD_THRESHOLD : Q.
Variable getUniqueIps : Z.





End Law.

End RetrySpec.

Module RetrySample.




End RetrySample.

(** ** Payload translation *)

Module TranslateSpec.

Import Preprocess.

(** A preprocessor translates when it turns every new request whose
    inbound format differs from its outbound format into a request whose
    body conforms to its outbound format. *)
Definition translates (transform : Request -> PreprocessError + Request)
    : Prop :=
  forall req,
    retryCount req = 0 -> inboundApi req <> outboundApi req ->
    exists req', transform req = inr req' /\
                 conforms (outboundApi req') (body req').

(** Every registered transformer writes the schema it is registered for. *)
Definition transformers_conform
    (API_REQUEST_TRANSFORMERS :
       APIFormat -> APIFormat -> option (Request -> PreprocessError + Body))
    : Prop :=
  forall inApi outApi transFn req b,
    API_REQUEST_TRANSFORMERS inApi outApi = Some transFn ->
    transFn req = inr b -> conforms outApi b.

End TranslateSpec.

Module TranslateSample.

Import Preprocess.

(** An OpenAI chat body on its way to an Anthropic chat upstream. *)
Definition chat : Request :=
  mkRequest openai anthropic_chat Response.anthropic
            (mkBody openai "{model, messages, stream}") 0.

(** Stand-ins for the collaborators of the translating preprocessor: every
    request generates text, a validator accepts the bodies of its own
    schema, and one transformer is registered, from OpenAI chat to
    Anthropic chat. *)
Definition isText (req : Request) : bool := true.
Definition isImage (req : Request) : bool := false.
Definition validators (format : APIFormat) (b : Body) : option Body :=
  if decide (schema b = format) then Some b else None.
Definition transformers (inApi outApi : APIFormat)
    : option (Request -> PreprocessError + Body) :=
  match inApi, outApi with
  | openai, anthropic_chat =>
      Some (fun req => inr (mkBody anthropic_chat "{model, messages, max_tokens}"))
  | _, _ => None
  end.
Definition fixPrompt (result b : Body) : Body := b.
Definition lastIsAssistant (b : Body) : bool := false.
Definition setPrefix (b : Body) : Body := b.

End TranslateSample.

(** ** The Mistral AI pool over time *)

Module MistralRun.

(** The provider between two calls: the clock reading of the last call and
    the keys.  A call reads a clock that never runs backwards. *)
Definition State : Type := Z * Mistral.Pool.

Inductive step : State -> State -> Prop :=
| step_get t keys now model k keys' :
    t <= now ->
    Mistral.get now model keys = Some (k, keys') ->
    step (t, keys) (now, keys')
| step_markRateLimited t keys now keyHash keys' :
    t <= now ->
    Mistral.markRateLimited now keyHash keys = Some keys' ->
    step (t, keys) (now, keys')
| step_disable t keys now key :
    t <= now ->
    step (t, keys) (now, Mistral.disable key keys).

(** The states reached from the pool that the constructor builds, at a
    clock reading that is not negative, for the configured secrets. *)
Inductive reachable (hashes : list string) : State -> Prop :=
| reachable_start t :
    0 <= t -> reachable hashes (t, map Mistral.newKey hashes)
| reachable_step s s' :
    reachable hashes s -> step s s' -> reachable hashes s'.

End MistralRun.

Module ProviderSample.

(** An AWS pool of two keys for Claude 3 Sonnet, as the constructor creates
    them, and a Mistral pool of one key. *)
Definition sonnet : string := "anthropic.claude-3-sonnet-20240229-v1:0".

Definition first : Aws.AwsBedrockKey :=
  Aws.mkAwsBedrockKey (mkKey "bbbbbbbb" [aws_claude] false false 0 0 0 0)
    Aws.unknown [sonnet] [].

Definition second : Aws.AwsBedrockKey :=
  Aws.mkAwsBedrockKey (mkKey "cccccccc" [aws_claude] false false 0 0 0 0)
    Aws.unknown [sonnet] [].

Definition pool : Aws.Pool := [first; second].

Definition secrets : list string := ["dddddddd"].

End ProviderSample.

(** ** Reset durations as OpenAI writes them *)

Module ResetSpec.

(** A non-empty run of decimal digits. *)
Definition digit_run (ds : string) : Prop :=
  ds <> EmptyString /\
  forallb OpenAI.is_digit (list_ascii_of_string ds) = true.

(** A duration in the header's notation: minutes, seconds with an optional
    fraction, milliseconds, each part optional, as in [14m25s],
    [21.0032s], [14ms]. *)
Record Duration : Set := mkDuration {
  minutes : option string;
  seconds : option (string * option string);
  milliseconds : option string
}.

Definition well_formed (d : Duration) : Prop :=
  match minutes d with Some m => digit_run m | None => True end /\
  match seconds d with
  | Some (i, Some f) => digit_run i /\ digit_run f
  | Some (i, None) => digit_run i
  | None => True
  end /\
  match milliseconds d with Some ms => digit_run ms | None => True end.

Definition shown_seconds (s : string * option string) : string :=
  match s with
  | (i, Some f) => i ++ "." ++ f ++ "s"
  | (i, None) => i ++ "s"
  end.

(** The header value. *)
Definition shown (d : Duration) : string :=
  match minutes d with Some m => m ++ "m" | None => EmptyString end
  ++ match seconds d with Some s => shown_seconds s | None => EmptyString end
  ++ match milliseconds d with Some ms => ms ++ "ms" | None => EmptyString end.

(** The milliseconds it stands for. *)
Definition millis (d : Duration) : Q :=
  (inject_Z
     (match minutes d with Some m => OpenAI.number m | None => 0 end * 60 * 1000)
   + match seconds d with
     | Some (i, Some f) => OpenAI.decimal i f
     | Some (i, None) => inject_Z (OpenAI.number i)
     | None => 0
     end * 1000
   + inject_Z
       match milliseconds d with Some ms => OpenAI.number ms | None => 0 end)%Q.

(** What may follow a run of digits for the run to end there, and what
    may follow the minutes: anything but an [s]. *)
Definition ends_run (rest : string) : Prop :=
  match rest with
  | String c _ => OpenAI.is_digit c = false
  | EmptyString => True
  end.

Definition not_s (rest : string) : Prop :=
  match rest with
  | String c _ => c <> "s"%char
  | EmptyString => True
  end.

End ResetSpec.

Module ResetSample.

(** [6m0s], [21.0032s] and [14ms]. *)
Definition six_minutes : ResetSpec.Duration :=
  ResetSpec.mkDuration (Some "6") (Some ("0", None)) None.
Definition fraction : ResetSpec.Duration :=
  ResetSpec.mkDuration None (Some ("21", Some "0032")) None.
Definition short : ResetSpec.Duration :=
  ResetSpec.mkDuration None None (Some "14").

End ResetSample.

(** ** Stripped headers *)

Module StripSpec.

(** The headers [stripHeaders] removes by name. *)
Definition named : list string :=
  [ "origin"; "referer";
    "tailscale-user-login"; "tailscale-user-name"; "tailscale-headers-info";
    "tailscale-user-profile-pic"; "cf-connecting-ip"; "cf-ray"; "cf-visitor";
    "cf-warp-tag-id"; "forwarded"; "true-client-ip"; "x-forwarded-for";
    "x-forwarded-host"; "x-forwarded-proto"; "x-real-ip" ].

(** A header that does not reach the upstream API. *)
Definition stripped (name : string) : bool :=
  bool_decide (name ∈ named) || String.prefix "sec-" name.

(** Header names as Node's parser delivers them: in lower case. *)
Definition lower_case_names (headers : gmap string string) : Prop :=
  map_Forall (fun name _ => JS.toLowerCase name = name) headers.

(** [m'] extends the log of [m], and undoing the extension gives back what
    was observable at [m]. *)
Definition undoable {Body SignedRequest ApiKey : Type}
    (m m' : ReqManager.ProxyReqManager Body SignedRequest ApiKey) : Prop :=
  exists mus,
    ReqManager.mutations m' = ReqManager.mutations m ++ mus /\
    ReqManager.same_observable
      (fold_left ReqManager.revert_mutation (rev mus) (ReqManager.req m'))
      (ReqManager.req m).

End StripSpec.

Module StripSample.

(** A browser's request through a tunnel. *)
Definition browser : ReqManager.Request string string string :=
  ReqManager.mkRequest
    {[ "origin" := "https://chat.example";
       "referer" := "https://chat.example/app";
       "sec-fetch-mode" := "cors";
       "x-forwarded-for" := "203.0.113.7";
       "content-type" := "application/json" ]}
    "/v1/chat/completions" "{}" None None.

End StripSample.

(** ** Answers and retries *)

Module AnswerSpec.

Import Response.

(** The actions that write to the client's response. *)
Definition answers_client (a : Action) : bool :=
  match a with
  | sendProxyError _ | sendErrorToClient | classifyErrorAndSend
  | writeSpoofedEvent | forwardResponse | endResponse | sendInternalError =>
      true
  | markRateLimited | disable _ | update _ | refundLastAttempt
  | updateRateLimits => false
  end.

(** The actions between two worlds. *)
Definition did (w w' : World) (acts : list Action) : Prop :=
  trace w' = trace w ++ acts.

Definition silent (acts : list Action) : Prop :=
  Forall (fun a => answers_client a = false) acts.

(** A handler that keeps answer and retry apart, for a request that
    [put_back] returns to the queue: when it returns it has neither touched
    the queue nor written to the client; when it throws the retryable
    error it has put the request back and written nothing to the client;
    when it throws anything else it has left the queue alone. *)
Definition keeps_apart {A}
    (put_back : Queue.queue_t -> Queue.EnqueueError + Queue.queue_t)
    (m : M A) : Prop :=
  forall w,
    exists acts, did w (snd (m w)) acts /\
      match fst (m w) with
      | Returned _ => queue (snd (m w)) = queue w /\ silent acts
      | Threw RetryableError =>
          put_back (queue w) = inr (queue (snd (m w))) /\ silent acts
      | Threw _ => queue (snd (m w)) = queue w
      end.

(** Something was written to the client. *)
Definition answered (acts : list Action) : Prop :=
  Exists (fun a => answers_client a = true) acts.

End AnswerSpec.

(** * Properties *)

(** ** The stable sort *)

Section SortFacts.
Context {A : Type} (cmp : A -> A -> Z).

Lemma insert_sorted_perm x l :
  Permutation (JS.insert_sorted cmp x l) (x :: l).
Proof.
  induction l as [|y l IH]; simpl; [reflexivity|].
  destruct (cmp x y <=? 0); [reflexivity|].
  rewrite IH. apply perm_swap.
Qed.

Lemma sort_perm l : Permutation (JS.sort cmp l) l.
Proof.
  induction l as [|x l IH]; simpl; [reflexivity|].
  unfold JS.sort in *. simpl. rewrite insert_sorted_perm. by constructor.
Qed.

(** A comparator orders consistently when [cmp x y <= 0] is total and
    transitive. *)
Definition consistent : Prop :=
  (forall x y, cmp x y <= 0 \/ cmp y x <= 0) /\
  (forall x y z, cmp x y <= 0 -> cmp y z <= 0 -> cmp x z <= 0).

Lemma insert_sorted_sorted x l :
  consistent ->
  StronglySorted (fun a b => cmp a b <= 0) l ->
  StronglySorted (fun a b => cmp a b <= 0) (JS.insert_sorted cmp x l).
Proof.
  intros [Htot Htrans] Hs. induction Hs as [|y l Hs IH Hall]; simpl.
  - repeat constructor.
  - destruct (cmp x y <=? 0) eqn:E.
    + apply Z.leb_le in E. constructor; [by constructor|].
      constructor; [done|].
      eapply Forall_impl; [exact Hall|]. intros z Hz. by eapply Htrans.
    + apply Z.leb_gt in E. constructor; [done|].
      rewrite (insert_sorted_perm x l). constructor; [|done].
      destruct (Htot x y); [lia|done].
Qed.

Lemma sort_sorted l :
  consistent -> StronglySorted (fun a b => cmp a b <= 0) (JS.sort cmp l).
Proof.
  intros Hc. induction l as [|x l IH]; [constructor|].
  unfold JS.sort in *. simpl. by apply insert_sorted_sorted.
Qed.

(** Stability: elements that compare equal to one another keep their
    relative order. *)
Lemma insert_sorted_stable (P : A -> bool) x l :
  (forall a b, P a = true -> P b = true -> cmp a b = 0) ->
  List.filter P (JS.insert_sorted cmp x l) = List.filter P (x :: l).
Proof.
  intros HP. induction l as [|y l IH]; [done|].
  cbn [JS.insert_sorted]. destruct (cmp x y <=? 0) eqn:E; [done|].
  apply Z.leb_gt in E.
  cbn [List.filter] in *. rewrite IH.
  destruct (P x) eqn:Px, (P y) eqn:Py; try done.
  specialize (HP x y Px Py). lia.
Qed.

Lemma sort_stable (P : A -> bool) l :
  (forall a b, P a = true -> P b = true -> cmp a b = 0) ->
  List.filter P (JS.sort cmp l) = List.filter P l.
Proof.
  intros HP. induction l as [|x l IH]; [done|].
  unfold JS.sort in *. cbn [foldr]. rewrite insert_sorted_stable by done.
  cbn [List.filter]. by rewrite IH.
Qed.

Lemma sort_nil_inv l : JS.sort cmp l = [] -> l = [].
Proof.
  intros E. apply Permutation_nil. rewrite <- E. apply sort_perm.
Qed.

End SortFacts.

(** ** Key prioritizer *)

Lemma StronglySorted_lookup {A} (R : A -> A -> Prop) (l : list A) i j a b :
  StronglySorted R l -> (i < j)%nat ->
  l !! i = Some a -> l !! j = Some b -> R a b.
Proof.
  intros Hs. revert i j. induction Hs as [|x l Hs IH Hall]; intros i j Hij Hi Hj.
  - done.
  - destruct i as [|i], j as [|j]; try lia; simpl in *.
    + injection Hi as <-. rewrite Forall_forall in Hall.
      apply Hall. eapply list_elem_of_lookup_2; eauto.
    + eapply (IH i j); eauto; lia.
Qed.

Section PrioritizeFacts.
Context {T : Type} `{KeyLike T}.
Import PrioritySpec.

Variable now : Z.
Variable tiebreaker : option (T -> T -> Z).

(** What "not after" means for the comparator of [prioritizeKeys]. *)
Lemma compareKeys_le a b :
  compareKeys now tiebreaker a b <= 0 <->
  match rateLimited now a, rateLimited now b with
  | true, false => False
  | false, true => True
  | true, true => rateLimitedUntil (key_of a) <= rateLimitedUntil (key_of b)
  | false, false =>
      tiebreak tiebreaker a b < 0 \/
      (tiebreak tiebreaker a b = 0 /\ lastUsed (key_of a) <= lastUsed (key_of b))
  end.
Proof.
  unfold compareKeys, rateLimited, tiebreak.
  destruct (now <? rateLimitedUntil (key_of a)),
           (now <? rateLimitedUntil (key_of b)); simpl; try lia.
  destruct tiebreaker as [f|]; [|lia].
  destruct (f a b =? 0) eqn:E; simpl.
  - apply Z.eqb_eq in E. lia.
  - apply Z.eqb_neq in E. lia.
Qed.

Lemma compareKeys_consistent :
  is_comparator tiebreaker -> consistent (compareKeys now tiebreaker).
Proof.
  intros [Hanti Htrans]. split.
  - intros x y. rewrite !compareKeys_le.
    specialize (Hanti x y).
    destruct (rateLimited now x), (rateLimited now y); try lia.
  - intros x y z. rewrite !compareKeys_le.
    pose proof (Hanti x y). pose proof (Hanti y z). pose proof (Hanti x z).
    pose proof (Htrans x y z). pose proof (Htrans z x y).
    pose proof (Htrans y z x).
    destruct (rateLimited now x), (rateLimited now y), (rateLimited now z);
      try lia.
Qed.

End PrioritizeFacts.

(** C7, as amended.  For every list of keys and every tiebreaker that is a
    comparator, [prioritizeKeys] returns a rearrangement of the keys in
    which (1) keys that are not rate limited come before rate-limited
    keys, (2) rate-limited keys come by increasing [rateLimitedUntil],
    (3)-(4) keys that are not rate limited come by the tiebreaker and,
    where it ties, by increasing [lastUsed]; rate-limited keys with equal
    [rateLimitedUntil] are not reordered. *)
Theorem prioritizeKeys_prioritized {T : Type} `{KeyLike T} (now : Z)
    (keys : list T) (tiebreaker : option (T -> T -> Z)) :
  PrioritySpec.is_comparator tiebreaker ->
  prioritized now tiebreaker keys (prioritizeKeys now keys tiebreaker).
Proof.
  intros Hc. unfold prioritized, prioritizeKeys. split; [apply sort_perm|]. split.
  - intros i j a b Hij Hi Hj.
    pose proof (sort_sorted (compareKeys now tiebreaker) keys
                  (compareKeys_consistent now tiebreaker Hc)) as Hs.
    pose proof (StronglySorted_lookup _ _ _ _ _ _ Hs Hij Hi Hj) as Hab.
    cbv beta in Hab. rewrite compareKeys_le in Hab.
    destruct (PrioritySpec.rateLimited now a), (PrioritySpec.rateLimited now b);
      split; intros; try done; try lia.
  - intros u. apply sort_stable. intros a b Ha Hb.
    unfold PrioritySpec.lockedUntil, PrioritySpec.rateLimited in *.
    apply andb_true_iff in Ha as [Ha1 Ha2]. apply andb_true_iff in Hb as [Hb1 Hb2].
    apply Z.eqb_eq in Ha2, Hb2. unfold compareKeys. rewrite Ha1, Hb1. simpl. lia.
Qed.

Lemma byTrial_is_comparator :
  PrioritySpec.is_comparator (Some OpenAI.byTrial).
Proof.
  split; simpl; unfold OpenAI.byTrial, JS.num_of_bool.
  - intros a b. destruct (OpenAI.isTrial a.2), (OpenAI.isTrial b.2); done.
  - intros a b c.
    destruct (OpenAI.isTrial a.2), (OpenAI.isTrial b.2), (OpenAI.isTrial c.2); lia.
Qed.

(** The theorem at OpenAI's tiebreaker, on a trial key followed by a paid
    key: the paid key is moved to the front. *)
Lemma prioritizeKeys_prioritized_witness :
  PrioritySpec.is_comparator (Some OpenAI.byTrial) /\
  prioritized 100 (Some OpenAI.byTrial)
    [(0%nat, Sample.trialKey); (1%nat, Sample.paidKey)]
    [(1%nat, Sample.paidKey); (0%nat, Sample.trialKey)].
Proof.
  split; [exact byTrial_is_comparator|].
  exact (prioritizeKeys_prioritized 100
           [(0%nat, Sample.trialKey); (1%nat, Sample.paidKey)]
           (Some OpenAI.byTrial) byTrial_is_comparator).
Defined.

(** C7, as stated, fails: two keys locked out until 500, the first used at
    5 and the second at 3, are left in that order, although rule (4) puts
    the one used at 3 ahead. *)
Lemma prioritizeKeys_ignores_lastUsed_of_rate_limited_keys :
  ~ PrioritySpec.respects (PrioritySpec.ahead 100 None)
      (prioritizeKeys 100 [Sample.keyA; Sample.keyB] None).
Proof.
  intros Hr.
  specialize (Hr 0%nat 1%nat Sample.keyA Sample.keyB).
  discriminate Hr; [lia|reflexivity|reflexivity].
Qed.

(** ** Key selection *)

Section PoolFacts.
Context {A : Type}.






End PoolFacts.






(** The sample pool [PoolSample.limited] arises from a fresh pool through
    the provider's own operations. *)
Lemma limited_pool_reachable :
  exists k pool1,
    OpenAI.get sampleOpenAIFamily false 1000 "gpt-4o" PoolSample.fresh
      = Some (k, pool1) /\
    OpenAI.markRateLimited 1500 "aaaaaaaa"
      (OpenAI.updateRateLimits 1500 "aaaaaaaa" (Some 1000) (Some 60000) pool1)
      = PoolSample.limited.
Proof. eexists _, _. split; reflexivity. Qed.




(** ** Lockout periods *)

Section LockoutFacts.
Context {T : Type}.

Lemma min_list_le (x : Z) xs : JS.min_list x xs <= x.
Proof. induction xs; simpl; lia. Qed.

Lemma min_list_lower (x : Z) xs y : y ∈ xs -> JS.min_list x xs <= y.
Proof.
  induction xs as [|z xs IH]; simpl; [by intros ?%elem_of_nil|].
  intros [->|Hy]%elem_of_cons; [lia|]. specialize (IH Hy). lia.
Qed.

Lemma min_list_attained (x : Z) xs :
  JS.min_list x xs = x \/ JS.min_list x xs ∈ xs.
Proof.
  induction xs as [|z xs IH]; [by left|].
  unfold JS.min_list in *. cbn [foldr].
  destruct (Z.min_spec z (foldr Z.min x xs)) as [[_ E]|[_ E]]; rewrite E.
  - right. by left.
  - destruct IH as [IH|IH]; [by left|right; by right].
Qed.

Lemma filter_length_lt (p : T -> bool) (l : list T) :
  (length (List.filter p l) <? length l)%nat = true <->
  exists k, k ∈ l /\ p k = false.
Proof.
  rewrite Nat.ltb_lt. induction l as [|x l IH]; simpl.
  - split; [lia|]. by intros (k & ?%elem_of_nil & _).
  - pose proof (List.filter_length_le p l).
    destruct (p x) eqn:E; simpl.
    + rewrite <- Nat.succ_lt_mono, IH. split.
      * intros (k & Hk & Hp). exists k. split; [by right|done].
      * intros (k & [->|Hk]%elem_of_cons & Hp); [congruence|eauto].
    + split; [|lia]. intros _. exists x. split; [by left|done].
Qed.

(** The shape shared by the generic and the OpenAI lockout functions. *)
Lemma lockout_shape (expiry : T -> Z) (active : list T) (now : Z) :
  LockoutSpec.lockoutPeriod expiry active now
    match active with
    | [] => 0
    | k0 :: rest =>
        if (length (List.filter (fun k => (now <? expiry k)%Z) active)
            <? length active)%nat
        then 0
        else JS.min_list (expiry k0 - now) (map (fun k => expiry k - now) rest)
    end.
Proof.
  unfold LockoutSpec.lockoutPeriod.
  destruct active as [|k0 rest]; [split; [tauto|done]|].
  destruct (_ <? _)%nat eqn:E.
  - apply filter_length_lt in E as (k & Hk & Hp). apply Z.ltb_ge in Hp.
    split; [|done]. split; [|done]. intros _. left. eauto.
  - assert (Hall : forall k, k ∈ k0 :: rest -> now < expiry k).
    { intros k Hk. destruct (now <? expiry k) eqn:Hp; [by apply Z.ltb_lt|].
      assert (Hex : exists k, k ∈ k0 :: rest /\ (now <? expiry k) = false)
        by eauto.
      apply filter_length_lt in Hex. congruence. }
    assert (Hlow : forall k, k ∈ k0 :: rest ->
              JS.min_list (expiry k0 - now) (map (fun k => expiry k - now) rest)
              <= expiry k - now).
    { intros k [->|Hk]%elem_of_cons; [apply min_list_le|].
      apply min_list_lower. apply list_elem_of_In.
      apply (in_map (fun k => expiry k - now)). by apply list_elem_of_In. }
    assert (Hatt : exists k, k ∈ k0 :: rest /\
              JS.min_list (expiry k0 - now) (map (fun k => expiry k - now) rest)
              = expiry k - now).
    { destruct (min_list_attained (expiry k0 - now)
                  (map (fun k => expiry k - now) rest)) as [->|Hin].
      - exists k0. split; [by left|done].
      - apply list_elem_of_In, in_map_iff in Hin as (k & Hk & Hin).
        exists k. split; [right; by apply list_elem_of_In|done]. }
    destruct Hatt as (km & Hkm & Hmin).
    pose proof (Hall km Hkm). split.
    + split; [lia|]. intros [(k & Hk & Hle)|?]; [|done].
      specialize (Hall k Hk). lia.
    + intros _. split; [eauto|done].
Qed.

End LockoutFacts.

(** C3, as amended.  For a provider that uses the generic lockout function
    (AWS among them), [getLockoutPeriod(family)] is 0 exactly when some
    enabled key serving the family has [rateLimitedUntil <= now] or the
    family has no enabled key, and is otherwise the least
    [rateLimitedUntil - now] among those keys.  For the OpenAI provider the
    same holds with the end of a key's lockout taken to be
    [rateLimitedAt + min(20000, max(rateLimitRequestsReset,
    rateLimitTokensReset))] in place of [rateLimitedUntil]. *)
Theorem getLockoutPeriod_characterised :
  (forall (T : Type) (K : KeyLike T) (keys : list T) now family,
     LockoutSpec.lockoutPeriod (fun k => rateLimitedUntil (key_of k))
       (LockoutSpec.enabledKeys family keys) now
       (createGenericGetLockoutPeriod keys now (Some family))) /\
  (forall keys now family,
     LockoutSpec.lockoutPeriod (fun k => rateLimitedUntil (Aws.base k))
       (LockoutSpec.enabledKeys family keys) now
       (Aws.getLockoutPeriod keys now family)) /\
  (forall keys now family,
     LockoutSpec.lockoutPeriod LockoutSpec.openaiExpiry
       (LockoutSpec.enabledKeys family keys) now
       (OpenAI.getLockoutPeriod keys now family)).
Proof.
  split; [|split]; intros.
  - apply (lockout_shape (fun k => rateLimitedUntil (key_of k))).
  - apply (lockout_shape (fun k => rateLimitedUntil (Aws.base k))).
  - apply (lockout_shape LockoutSpec.openaiExpiry).
Qed.

(** The sample pool [LockoutSample.waiting] arises from a fresh pool. *)
Lemma waiting_pool_reachable :
  exists k pool1,
    OpenAI.get sampleOpenAIFamily false 1000 "gpt-4o" PoolSample.fresh
      = Some (k, pool1) /\
    OpenAI.updateRateLimits 1500 "aaaaaaaa" (Some 1000) (Some 60000) pool1
      = LockoutSample.waiting.
Proof. eexists _, _. split; reflexivity. Qed.

(** C3, as stated, fails for the OpenAI provider: at time 30000 the only
    enabled key serving [gpt4o] is rate limited until 61000, and yet the
    lockout period is 0. *)
Lemma openai_lockout_ignores_rateLimitedUntil :
  ~ LockoutSpec.lockoutPeriod (fun k => rateLimitedUntil (OpenAI.base k))
      (LockoutSpec.enabledKeys gpt4o LockoutSample.waiting) 30000
      (OpenAI.getLockoutPeriod LockoutSample.waiting 30000 gpt4o).
Proof.
  intros [[Hzero _] _].
  destruct (Hzero eq_refl) as [(k & Hk & Hle)|Hnil]; [|done].
  vm_compute in Hk. apply list_elem_of_singleton in Hk as ->.
  vm_compute in Hle. by apply Hle.
Qed.

(** ** The snapshot filter of the OpenAI provider *)




(** ** Request manager *)

Lemma pathname_idem u : ReqManager.pathname (ReqManager.pathname u) = ReqManager.pathname u.
Proof.
  induction u as [|c u IH]; [done|]. simpl.
  destruct (Ascii.eqb c "?") eqn:E; [done|]. simpl. by rewrite E, IH.
Qed.

Section RevertFacts.
Context {Body SignedRequest ApiKey : Type}.
Import ReqManager.

Abbreviation Request := (ReqManager.Request Body SignedRequest ApiKey).
Abbreviation Manager := (ReqManager.ProxyReqManager Body SignedRequest ApiKey).
Abbreviation Mutation := (ReqManager.ProxyReqMutation Body SignedRequest ApiKey).
Abbreviation Call := (ReqManager.Call Body SignedRequest ApiKey).

Lemma get_unaliased (r : Request) name :
  unaliased name = true -> get r name = headers r !! JS.toLowerCase name.
Proof.
  unfold unaliased, get. intros [H1 H2]%andb_true_iff.
  apply negb_true_iff in H1, H2. by rewrite H1, H2.
Qed.

Global Instance same_observable_equiv : Equivalence (@same_observable Body SignedRequest ApiKey).
Proof.
  split.
  - by intros r.
  - intros r1 r2 (?&?&?&?). by repeat split.
  - intros r1 r2 r3 (?&?&?&?) (?&?&?&?). repeat split; congruence.
Qed.

Lemma revert_mutation_observable (r1 r2 : Request) (mu : Mutation) :
  same_observable r1 r2 ->
  same_observable (revert_mutation r1 mu) (revert_mutation r2 mu).
Proof.
  intros (Hh & Hb & Hp & Hs).
  destruct mu as [k [v|]| | | |]; unfold same_observable, path in *; simpl;
    rewrite ?Hh, ?Hb, ?Hs; auto.
Qed.

Lemma revert_mutation_key (r : Request) (mu : Mutation) :
  key (revert_mutation r mu) = key r.
Proof. by destruct mu as [k [v|]| | | |]. Qed.

Lemma revert_all_observable (mus : list Mutation) (r1 r2 : Request) :
  same_observable r1 r2 ->
  same_observable (fold_left revert_mutation mus r1)
                  (fold_left revert_mutation mus r2).
Proof.
  revert r1 r2. induction mus as [|mu mus IH]; intros r1 r2 H; [done|].
  simpl. by apply IH, revert_mutation_observable.
Qed.

Lemma revert_all_key (mus : list Mutation) (r : Request) :
  key (fold_left revert_mutation mus r) = key r.
Proof.
  revert r. induction mus as [|mu mus IH]; intros r; [done|].
  simpl. by rewrite IH, revert_mutation_key.
Qed.

(** Undoing the entry a call has logged gives back what was observable
    before the call. *)
Lemma perform_undo (c : Call) (m m' : Manager) :
  unaliased_call c = true -> perform c m = Some m' ->
  exists mu, mutations m' = mutations m ++ [mu] /\
             same_observable (revert_mutation (req m') mu) (req m).
Proof.
  destruct c as [name v|name|b|k|p|s]; simpl;
    unfold unaliased_call, setHeader, removeHeader; simpl; intros Hu Hp.
  - destruct (bool_decide (name = "")); [done|]. injection Hp as <-.
    eexists. split; [done|]. rewrite (get_unaliased _ _ Hu).
    unfold same_observable, path. simpl.
    destruct (headers (req m) !! JS.toLowerCase name) as [v0|] eqn:E; simpl;
      (split; [|done]).
    + by rewrite insert_insert_eq, insert_id.
    + by rewrite delete_insert_eq, delete_id.
  - destruct (bool_decide (name = "")); [done|]. injection Hp as <-.
    eexists. split; [done|]. rewrite (get_unaliased _ _ Hu).
    unfold same_observable, path. simpl.
    destruct (headers (req m) !! JS.toLowerCase name) as [v0|] eqn:E; simpl;
      (split; [|done]).
    + by rewrite insert_delete_eq, insert_id.
    + by rewrite delete_delete_eq, delete_id.
  - injection Hp as <-. eexists. split; [done|].
    by unfold same_observable, path.
  - injection Hp as <-. eexists. split; [done|].
    by unfold same_observable, path.
  - injection Hp as <-. eexists. split; [done|].
    unfold same_observable, path. simpl. by rewrite pathname_idem.
  - injection Hp as <-. eexists. split; [done|].
    by unfold same_observable, path.
Qed.

Lemma perform_key_or_same (c : Call) (m m' : Manager) :
  perform c m = Some m' ->
  key (req m') = key (req m) \/ exists k, c = call_setKey k /\ key (req m') = Some k.
Proof.
  destruct c as [name v|name|b|k|p|s]; simpl;
    unfold setHeader, removeHeader; try destruct (bool_decide _);
    intros [= <-]; eauto.
Qed.

Lemma perform_all_undo (cs : list Call) (m m' : Manager) :
  Forall (fun c => unaliased_call c = true) cs ->
  perform_all cs m = Some m' ->
  exists mus, mutations m' = mutations m ++ mus /\
              same_observable (fold_left revert_mutation (rev mus) (req m'))
                              (req m).
Proof.
  intros Hcs. revert m. induction Hcs as [|c cs Hc Hcs IH]; intros m; simpl.
  - intros [= <-]. exists []. by rewrite app_nil_r.
  - destruct (perform c m) as [m1|] eqn:E1; [|done]. intros E.
    destruct (perform_undo c m m1 Hc E1) as (mu & Hmu & Hobs).
    destruct (IH m1 E) as (mus & Hmus & Hobs').
    exists (mu :: mus). split.
    + by rewrite Hmus, Hmu, <- app_assoc.
    + simpl. rewrite fold_left_app. simpl.
      etransitivity; [|exact Hobs]. by apply revert_mutation_observable.
Qed.

End RevertFacts.

(** The revert law for mutations whose header names stay clear of the
    [Referer]/[Referrer] pair: after [revert()] the headers, body, path and
    signed request are those of the request before the first mutation, the
    assigned key is the one the request had just before [revert()], and
    the mutation log is empty. *)
Theorem revert_restores_unaliased {Body SignedRequest ApiKey : Type}
    (r : ReqManager.Request Body SignedRequest ApiKey) cs m :
  Forall (fun c => ReqManager.unaliased_call c = true) cs ->
  ReqManager.perform_all cs (ReqManager.new_manager r) = Some m ->
  ReqManager.same_observable (ReqManager.req (ReqManager.revert m)) r /\
  ReqManager.key (ReqManager.req (ReqManager.revert m))
    = ReqManager.key (ReqManager.req m) /\
  ReqManager.mutations (ReqManager.revert m) = [].
Proof.
  intros Hcs Hp. destruct (perform_all_undo cs _ m Hcs Hp) as (mus & Hmus & Hobs).
  simpl in Hmus. unfold ReqManager.revert. simpl. rewrite Hmus.
  split; [exact Hobs|]. split; [apply revert_all_key|done].
Qed.

Lemma revert_restores_unaliased_witness :
  exists m,
    ReqManager.perform_all RevertSample.calls
      (ReqManager.new_manager RevertSample.plain) = Some m /\
    ReqManager.same_observable (ReqManager.req (ReqManager.revert m))
      RevertSample.plain /\
    ReqManager.key (ReqManager.req (ReqManager.revert m)) = Some "sk-secret" /\
    ReqManager.mutations (ReqManager.revert m) = [].
Proof.
  eexists. split; [reflexivity|].
  match goal with
  | |- ReqManager.same_observable (ReqManager.req (ReqManager.revert ?m)) _ /\ _ =>
      pose proof (revert_restores_unaliased RevertSample.plain
                    RevertSample.calls m) as H
  end.
  destruct H as (H1 & H2 & H3); [|reflexivity|].
  - repeat constructor.
  - split; [exact H1|]. split; [|exact H3]. rewrite H2. reflexivity.
Defined.

(** C4 at a failing input.  A request arrives with the header
    [Referrer: https://chat.example]; [stripHeaders] calls
    [removeHeader("origin")] and [removeHeader("referer")].  [req.get]
    answers the lookup of [referer] with the value of [referrer], so the
    log records that value as the original of [referer], and [revert()]
    writes a [referer] header the request never had: the headers after
    [revert()] differ from those before the first mutation. *)
Theorem revert_invents_referer_header :
  exists m,
    ReqManager.perform_all ReqManager.stripHeaders_prefix
      (ReqManager.new_manager RevertSample.incoming) = Some m /\
    ReqManager.mutations (ReqManager.revert m) = [] /\
    ReqManager.headers (ReqManager.req (ReqManager.revert m)) !! "referer"
      = Some "https://chat.example" /\
    ReqManager.headers RevertSample.incoming !! "referer" = None /\
    ~ ReqManager.same_observable (ReqManager.req (ReqManager.revert m))
        RevertSample.incoming.
Proof.
  eexists. split; [reflexivity|]. split; [reflexivity|].
  split; [reflexivity|]. split; [reflexivity|].
  intros [Hh _]. apply (f_equal (fun h => h !! "referer")) in Hh.
  discriminate Hh.
Qed.

(** ** Dequeue *)

Section DequeueFacts.
Variable tokensPunishmentFactor : Q.

Abbreviation weight := (Queue.weight tokensPunishmentFactor).









End DequeueFacts.

Section ProcessQueueFacts.
Variable tokensPunishmentFactor : Q.
Variable getLockoutPeriod : ModelFamily -> Z.
Variable now : Z.


End ProcessQueueFacts.

Lemma MODEL_FAMILIES_complete family : family ∈ MODEL_FAMILIES.
Proof. destruct family; unfold MODEL_FAMILIES; set_solver. Qed.

Lemma MODEL_FAMILIES_NoDup : NoDup MODEL_FAMILIES.
Proof. apply (bool_decide_unpack _). vm_compute. exact I. Qed.



(** ** Admission to the queue *)

Section AdmissionFacts.
Variable USER_CONCURRENCY_LIMIT : Z.
Variable LOAD_THRESHOLD : Q.
Variable getUniqueIps : Z.
Variable tokensPunishmentFactor : Q.

Lemma slots_push ident req queue :
  Scheduler.slots ident (Queue.push req queue)
  = (Scheduler.slots ident queue
     + if bool_decide (Queue.getIdentifier req = ident) then 1 else 0)%nat.
Proof.
  unfold Scheduler.slots, Queue.push. rewrite List.filter_app, length_app.
  simpl. change (Queue.getIdentifier (Queue.with_queueOutTime 0 req))
    with (Queue.getIdentifier req).
  by destruct (bool_decide _).
Qed.

Lemma slots_delete ident i queue :
  (Scheduler.slots ident (delete i queue) <= Scheduler.slots ident queue)%nat.
Proof.
  unfold Scheduler.slots. revert i.
  induction queue as [|r queue IH]; intros i; [done|].
  destruct i as [|i]; simpl.
  - destruct (bool_decide _); simpl; lia.
  - specialize (IH i). destruct (bool_decide _); simpl; lia.
Qed.

Lemma slots_dequeue ident now partition queue :
  (Scheduler.slots ident
     (snd (Queue.dequeue tokensPunishmentFactor now partition queue))
   <= Scheduler.slots ident queue)%nat.
Proof.
  unfold Queue.dequeue. destruct (List.filter _ _) as [|first rest]; [done|].
  destruct (fold_left _ rest first) as [i req]. apply slots_delete.
Qed.

(** The count [enqueue] takes is the number of slots of the identity. *)
Lemma enqueuedRequestCount_slots req queue :
  length (List.filter (Queue.sharesIdentifierWith req) queue)
  = Scheduler.slots (Queue.getIdentifier req) queue.
Proof. done. Qed.

Lemma enqueue_guards_passed req queue b :
  Queue.enqueue_guards USER_CONCURRENCY_LIMIT LOAD_THRESHOLD getUniqueIps
                       req queue = inr b ->
  Queue.aborted req = false /\
  Z.of_nat (Scheduler.slots (Queue.getIdentifier req) queue)
    < USER_CONCURRENCY_LIMIT.
Proof.
  unfold Queue.enqueue_guards. destruct (Queue.aborted req); [done|].
  rewrite enqueuedRequestCount_slots.
  destruct (_ <=? _) eqn:E; [done|]. apply Z.leb_gt in E. done.
Qed.

Lemma enqueue_within_limit joinDrained req queue queue' :
  Scheduler.within_limit USER_CONCURRENCY_LIMIT queue ->
  Queue.enqueue USER_CONCURRENCY_LIMIT LOAD_THRESHOLD getUniqueIps
                joinDrained req queue = inr queue' ->
  Scheduler.within_limit USER_CONCURRENCY_LIMIT queue'.
Proof.
  intros Hinv. unfold Queue.enqueue.
  destruct (Queue.enqueue_guards _ _ _ req queue) as [e|b] eqn:Hg; [done|].
  apply enqueue_guards_passed in Hg as [_ Hlt].
  assert (Hpush : forall req', Queue.getIdentifier req' = Queue.getIdentifier req ->
            Scheduler.within_limit USER_CONCURRENCY_LIMIT (Queue.push req' queue)).
  { intros req' Hid ident. rewrite slots_push, Hid. specialize (Hinv ident).
    destruct (bool_decide _) eqn:E; [|lia].
    apply bool_decide_eq_true in E. subst ident. lia. }
  destruct b; [destruct joinDrained; [|done]|];
    intros [= <-]; by apply Hpush.
Qed.

Lemma atomic_step_within_limit queue queue' :
  Scheduler.within_limit USER_CONCURRENCY_LIMIT queue ->
  Scheduler.atomic_step USER_CONCURRENCY_LIMIT LOAD_THRESHOLD getUniqueIps
    tokensPunishmentFactor queue queue' ->
  Scheduler.within_limit USER_CONCURRENCY_LIMIT queue'.
Proof.
  intros Hinv Hstep. destruct Hstep as [jd req q q' He|now p q|i q].
  - by eapply enqueue_within_limit.
  - intros ident. specialize (Hinv ident).
    pose proof (slots_dequeue ident now p q). lia.
  - intros ident. specialize (Hinv ident).
    pose proof (slots_delete ident i q). unfold Queue.removeFromQueue. lia.
Qed.

End AdmissionFacts.

(** C8, as amended.  [enqueue] rejects a request whose client is still
    connected with [TooManyRequestsError] whenever its identity already
    holds [USER_CONCURRENCY_LIMIT] queue slots; and, for a limit that is
    not negative, every queue reached by calls of [enqueue] that run from
    their guards to their [push] without another call in between, by
    [dequeue] and by removals has at most [USER_CONCURRENCY_LIMIT] entries
    of each identity. *)
Theorem enqueue_keeps_identities_within_limit
    USER_CONCURRENCY_LIMIT LOAD_THRESHOLD getUniqueIps tokensPunishmentFactor :
  (forall joinDrained req queue,
     Queue.aborted req = false ->
     USER_CONCURRENCY_LIMIT
       <= Z.of_nat (Scheduler.slots (Queue.getIdentifier req) queue) ->
     Queue.enqueue USER_CONCURRENCY_LIMIT LOAD_THRESHOLD getUniqueIps
                   joinDrained req queue
     = inl Queue.TooManyRequestsError) /\
  (0 <= USER_CONCURRENCY_LIMIT ->
   forall queue,
     Scheduler.reachable USER_CONCURRENCY_LIMIT LOAD_THRESHOLD getUniqueIps
       tokensPunishmentFactor queue ->
     Scheduler.within_limit USER_CONCURRENCY_LIMIT queue).
Proof.
  split.
  - intros jd req queue Hlive Hfull.
    unfold Queue.enqueue, Queue.enqueue_guards. rewrite Hlive.
    rewrite enqueuedRequestCount_slots.
    by apply Z.leb_le in Hfull as ->.
  - intros Hlimit queue Hreach. induction Hreach as [|q q' _ IH Hstep].
    + intros ident. unfold Scheduler.slots. simpl. lia.
    + by eapply atomic_step_within_limit.
Qed.

(** The theorem with the default limit of 1: a second request of a user
    who has one in the queue is rejected, and the queue that holds the
    first request is within the limit. *)
Lemma enqueue_keeps_identities_within_limit_witness :
  (Queue.aborted AdmissionSample.second = false /\
   1 <= Z.of_nat (Scheduler.slots (Queue.getIdentifier AdmissionSample.second)
                    [AdmissionSample.queued]) /\
   Queue.enqueue 1 150 1 true AdmissionSample.second [AdmissionSample.queued]
   = inl Queue.TooManyRequestsError) /\
  (0 <= 1 /\
   Scheduler.reachable 1 150 1 0 [AdmissionSample.queued] /\
   Scheduler.within_limit 1 [AdmissionSample.queued]).
Proof.
  assert (Hreach : Scheduler.reachable 1 150 1 0 [AdmissionSample.queued]).
  { eapply Scheduler.reachable_step; [apply Scheduler.reachable_start|].
    apply (Scheduler.step_enqueue 1 150 1 0 true AdmissionSample.queued []).
    reflexivity. }
  split.
  - split; [reflexivity|]. split; [vm_compute; discriminate|].
    apply (proj1 (enqueue_keeps_identities_within_limit 1 150 1 0));
      [reflexivity|vm_compute; discriminate].
  - split; [lia|]. split; [exact Hreach|].
    apply (proj2 (enqueue_keeps_identities_within_limit 1 150 1 0));
      [lia|exact Hreach].
Defined.

(** C8, as stated, fails: with the limit at 1 and a request of the same
    user in the queue, a request whose client has gone away is rejected
    with the error for aborted requests, not [TooManyRequestsError]. *)
Lemma enqueue_rejects_aborted_request_first :
  ~ AdmissionSpec.rejects_at_limit 1 150 1.
Proof.
  intros H.
  specialize (H true AdmissionSample.gone [AdmissionSample.queued]).
  discriminate H. vm_compute. discriminate.
Qed.

(** The guards and the [push] of [enqueue] are separated by
    [await initStreaming(req)]: two streaming requests of one user that
    both pass the guards before either join message has drained are both
    pushed, and the user then holds two slots under a limit of 1. *)
Lemma interleaved_enqueue_exceeds_limit :
  exists s,
    Scheduler.async_reachable 1 150 1 0 s /\
    ~ Scheduler.within_limit 1 (Scheduler.queue s).
Proof.
  pose (r1 := Queue.with_queueOutTime 0
                (Queue.with_headersSent true AdmissionSample.stream1)).
  pose (r2 := Queue.with_queueOutTime 0
                (Queue.with_headersSent true AdmissionSample.stream2)).
  assert (H1 : Scheduler.async_reachable 1 150 1 0
                 (Scheduler.mkState [] [AdmissionSample.stream1])).
  { eapply Scheduler.async_next; [apply Scheduler.async_start|].
    exact (Scheduler.async_join_begin 1 150 1 0 (Scheduler.mkState [] [])
             AdmissionSample.stream1 eq_refl). }
  assert (H2 : Scheduler.async_reachable 1 150 1 0
                 (Scheduler.mkState []
                    [AdmissionSample.stream1; AdmissionSample.stream2])).
  { eapply Scheduler.async_next; [exact H1|].
    exact (Scheduler.async_join_begin 1 150 1 0
             (Scheduler.mkState [] [AdmissionSample.stream1])
             AdmissionSample.stream2 eq_refl). }
  assert (H3 : Scheduler.async_reachable 1 150 1 0
                 (Scheduler.mkState [r1] [AdmissionSample.stream2])).
  { eapply Scheduler.async_next; [exact H2|].
    exact (Scheduler.async_join_drained 1 150 1 0
             (Scheduler.mkState []
                [AdmissionSample.stream1; AdmissionSample.stream2])
             [] AdmissionSample.stream1 [AdmissionSample.stream2] eq_refl). }
  exists (Scheduler.mkState [r1; r2] []). split.
  - eapply Scheduler.async_next; [exact H3|].
    exact (Scheduler.async_join_drained 1 150 1 0
             (Scheduler.mkState [r1] [AdmissionSample.stream2])
             [] AdmissionSample.stream2 [] eq_refl).
  - intros H. specialize (H "dave"). vm_compute in H. by apply H.
Qed.

(** ** Wait-time estimates *)

Section EstimateFacts.
Local Open Scope Q_scope.
Variable now : Z.
Variable queue : list Queue.Request.

Abbreviation next_historical := (EstimateSpec.next_historical now).
Abbreviation next_current := (EstimateSpec.next_current now queue).
Abbreviation published := EstimateSpec.published.
Abbreviation tick_step := (EstimateSpec.tick_step now queue).

Lemma tick_fold families :
  NoDup families ->
  forall e,
    let e' := fold_left tick_step families e in
    WaitTime.waitTimes e' = WaitTime.waitTimes e /\
    forall p,
      (p ∈ families ->
       WaitTime.historicalEmas e' p = next_historical e p /\
       WaitTime.currentEmas e' p = next_current e p /\
       WaitTime.estimates e' p = published e p) /\
      (p ∉ families ->
       WaitTime.historicalEmas e' p = WaitTime.historicalEmas e p /\
       WaitTime.currentEmas e' p = WaitTime.currentEmas e p /\
       WaitTime.estimates e' p = WaitTime.estimates e p).
Proof.
  induction 1 as [|g fs Hg Hfs IH]; intros e; simpl.
  { split; [done|]. intros p. split; [by intros ?%elem_of_nil|done]. }
  destruct (IH (tick_step e g)) as [Hw Hp]. split; [by rewrite Hw|].
  intros p. destruct (Hp p) as [Hin Hout].
  destruct (decide (p = g)) as [->|Hne].
  - split.
    + intros _. destruct (Hout Hg) as (-> & -> & ->).
      unfold tick_step, WaitTime.calculateWaitTime, WaitTime.set. simpl.
      by destruct (decide (g = g)).
    + intros Hnot. exfalso. apply Hnot. by left.
  - assert (Hsame : WaitTime.historicalEmas (tick_step e g) p
                      = WaitTime.historicalEmas e p /\
                    WaitTime.currentEmas (tick_step e g) p
                      = WaitTime.currentEmas e p /\
                    WaitTime.estimates (tick_step e g) p
                      = WaitTime.estimates e p /\
                    WaitTime.waitTimes (tick_step e g) = WaitTime.waitTimes e).
    { unfold tick_step, WaitTime.calculateWaitTime, WaitTime.set. simpl.
      by destruct (decide (p = g)). }
    destruct Hsame as (Hh & Hc & He & Hwt). split.
    + intros [?|Hin']%elem_of_cons; [done|].
      destruct (Hin Hin') as (-> & -> & ->).
      unfold next_historical, next_current, published.
      by rewrite Hh, Hc, Hwt.
    + intros Hnot. destruct Hout as (-> & -> & ->); [|done].
      intros Hin'. apply Hnot. by right.
Qed.

Lemma tick_family e p :
  WaitTime.waitTimes (WaitTime.tick now queue e) = WaitTime.waitTimes e /\
  WaitTime.historicalEmas (WaitTime.tick now queue e) p = next_historical e p /\
  WaitTime.currentEmas (WaitTime.tick now queue e) p = next_current e p /\
  WaitTime.estimates (WaitTime.tick now queue e) p = published e p.
Proof.
  destruct (tick_fold MODEL_FAMILIES MODEL_FAMILIES_NoDup e) as [Hw Hp].
  split; [exact Hw|]. by apply Hp, MODEL_FAMILIES_complete.
Qed.

End EstimateFacts.





(** The current average is never negative: it starts at 0, and a tick
    averages it with a longest wait that [Math.max(..., 0)] keeps at or
    above 0. *)
Lemma tick_currentEma_nonneg now queue e p :
  (0 <= WaitTime.currentEmas e p)%Q ->
  (0 <= WaitTime.currentEmas (WaitTime.tick now queue e) p)%Q.
Proof.
  intros Hc. destruct (tick_family now queue e p) as (_ & _ & -> & _).
  unfold EstimateSpec.next_current, WaitTime.ALPHA_CURRENT.
  assert (H : (0 <= WaitTime.longestCurrentWait now p queue)%Z).
  { unfold WaitTime.longestCurrentWait.
    induction (map _ _) as [|z l IH]; simpl; lia. }
  assert (H' : (0 <= inject_Z (WaitTime.longestCurrentWait now p queue))%Q).
  { change 0%Q with (inject_Z 0). by rewrite <- Zle_Qle. }
  lra.
Qed.



(** ** Retries *)

Section RetryFacts.
Variable USER_CONCURRENCY_LIMIT : Z.
Variable LOAD_THRESHOLD : Q.
Variable getUniqueIps : Z.
Import Response.




End RetryFacts.




(** ** Payload translation *)

Section TranslatingFacts.
Import Preprocess.
Variable isTextGenerationRequest isImageGenerationRequest : Request -> bool.
Variable API_REQUEST_VALIDATORS : APIFormat -> Body -> option Body.
Variable API_REQUEST_TRANSFORMERS :
  APIFormat -> APIFormat -> option (Request -> PreprocessError + Body).
Variable fixMistralPrompt : Body -> Body -> Body.
Variable lastMessageIsAssistant : Body -> bool.
Variable setLastMessagePrefix : Body -> Body.

Abbreviation fixes :=
  (Translating.applyMistralPromptFixes API_REQUEST_VALIDATORS fixMistralPrompt
     lastMessageIsAssistant setLastMessagePrefix).
Abbreviation transform :=
  (Translating.transformOutboundPayload isTextGenerationRequest
     isImageGenerationRequest API_REQUEST_VALIDATORS API_REQUEST_TRANSFORMERS
     fixMistralPrompt lastMessageIsAssistant setLastMessagePrefix).

(** What the translating preprocessor does with a new request that
    generates text or images, once the Mistral prompt fixes are applied. *)
Lemma transform_new req req1 :
  retryCount req <= 0 ->
  isTextGenerationRequest req || isImageGenerationRequest req = true ->
  fixes req = inr req1 ->
  transform req =
    if bool_decide (inboundApi req1 = outboundApi req1) then
      match API_REQUEST_VALIDATORS (inboundApi req1) (body req1) with
      | None => inl ZodError
      | Some result => inr (Translating.with_body result req1)
      end
    else
      match API_REQUEST_TRANSFORMERS (inboundApi req1) (outboundApi req1) with
      | Some transFn =>
          match transFn req1 with
          | inl e => inl e
          | inr b => inr (Translating.with_body b req1)
          end
      | None => inl BadRequestError
      end.
Proof.
  intros Hnew Hgen Hfix. unfold Translating.transformOutboundPayload.
  assert (E : (0 <? retryCount req) = false) by by apply Z.ltb_ge.
  rewrite E. apply orb_true_iff in Hgen.
  assert (E2 : negb (isTextGenerationRequest req)
               && negb (isImageGenerationRequest req) = false).
  { destruct Hgen as [-> | ->]; [done|by rewrite andb_false_r]. }
  rewrite E2. by rewrite Hfix.
Qed.

End TranslatingFacts.

(** C1, as amended.  The passthrough preprocessor returns every request as
    it came, whatever its formats and retry count, so that afterwards the
    body conforms to the outbound format exactly when it did before.  The
    translating preprocessor, for a new request that generates text or
    images and whose inbound format still differs from its outbound format
    after the Mistral prompt fixes, returns the body written by the
    transformer registered for that pair of formats, which conforms to the
    outbound format when every registered transformer writes the schema it
    is registered for; when no transformer is registered for the pair it
    fails with [BadRequestError]. *)
Theorem transformOutboundPayload_by_variant :
  (forall req,
     Preprocess.Passthrough.transformOutboundPayload req = inr req) /\
  (forall isText isImage validators transformers fixPrompt lastIsAssistant
          setPrefix req req1,
     Preprocess.retryCount req <= 0 ->
     isText req || isImage req = true ->
     Preprocess.Translating.applyMistralPromptFixes validators fixPrompt
       lastIsAssistant setPrefix req = inr req1 ->
     Preprocess.inboundApi req1 <> Preprocess.outboundApi req1 ->
     match transformers (Preprocess.inboundApi req1)
                        (Preprocess.outboundApi req1) with
     | None =>
         Preprocess.Translating.transformOutboundPayload isText isImage
           validators transformers fixPrompt lastIsAssistant setPrefix req
         = inl Preprocess.BadRequestError
     | Some transFn =>
         forall b, transFn req1 = inr b ->
           Preprocess.Translating.transformOutboundPayload isText isImage
             validators transformers fixPrompt lastIsAssistant setPrefix req
           = inr (Preprocess.Translating.with_body b req1) /\
           (TranslateSpec.transformers_conform transformers ->
            Preprocess.conforms (Preprocess.outboundApi req1) b)
     end).
Proof.
  split.
  - intros req. unfold Preprocess.Passthrough.transformOutboundPayload.
    by destruct (_ <? _).
  - intros isText isImage validators transformers fixPrompt lastIsAssistant
      setPrefix req req1 Hnew Hgen Hfix Hne.
    rewrite (transform_new isText isImage validators transformers fixPrompt
               lastIsAssistant setPrefix req req1 Hnew Hgen Hfix).
    rewrite bool_decide_eq_false_2 by done.
    destruct (transformers _ _) as [transFn|] eqn:HT; [|done].
    intros b Hb. rewrite Hb. split; [done|].
    intros Hconf. by eapply Hconf.
Qed.

(** The theorem's second part on an OpenAI chat request bound for an
    Anthropic chat upstream, with one transformer registered. *)
Lemma transformOutboundPayload_by_variant_witness :
  Preprocess.retryCount TranslateSample.chat <= 0 /\
  TranslateSample.isText TranslateSample.chat
    || TranslateSample.isImage TranslateSample.chat = true /\
  Preprocess.inboundApi TranslateSample.chat
    <> Preprocess.outboundApi TranslateSample.chat /\
  Preprocess.Translating.transformOutboundPayload TranslateSample.isText
    TranslateSample.isImage TranslateSample.validators
    TranslateSample.transformers TranslateSample.fixPrompt
    TranslateSample.lastIsAssistant TranslateSample.setPrefix
    TranslateSample.chat
  = inr (Preprocess.Translating.with_body
           (Preprocess.mkBody Preprocess.anthropic_chat
              "{model, messages, max_tokens}")
           TranslateSample.chat).
Proof.
  split; [discriminate|]. split; [reflexivity|]. split; [discriminate|].
  apply (proj2 transformOutboundPayload_by_variant TranslateSample.isText
           TranslateSample.isImage TranslateSample.validators
           TranslateSample.transformers TranslateSample.fixPrompt
           TranslateSample.lastIsAssistant TranslateSample.setPrefix
           TranslateSample.chat TranslateSample.chat);
    [discriminate|reflexivity|reflexivity|discriminate|reflexivity].
Defined.

(** C1, as stated, fails for the passthrough preprocessor: the OpenAI chat
    body of a new request bound for an Anthropic chat upstream is still an
    OpenAI chat body after preprocessing. *)
Lemma passthrough_does_not_translate :
  ~ TranslateSpec.translates Preprocess.Passthrough.transformOutboundPayload.
Proof.
  intros H.
  destruct (H TranslateSample.chat eq_refl) as (req' & Hreq & Hconf).
  { discriminate. }
  injection Hreq as <-. discriminate Hconf.
Qed.
